(** * Volunteer check-in and live dashboard: a shallow embedding

    The development follows the TypeScript sources

    - [src/pages/EventsOverviewPage.tsx] (dashboard: [addIssue], the
      signup subscription, the staffing interval, the feed filter; check-in
      page: the volunteers query, [checkInMutation], [calculateDistance],
      [isNearPosition]),
    - [src/components/SaveToSupabase.tsx] ([handleSaveToSupabase]),
    - [src/types.ts] ([StructuredSignUpData]).

    JavaScript numbers that carry coordinates are idealised as real numbers
    ([R]); integer columns ([needed], [filled]) are [Z]; strings are
    [string]; [undefined] and [null] are [None]. *)

From Stdlib Require Import List String Bool ZArith Lia.
From Stdlib Require Import Reals Lra.
From Stdlib Require Import Permutation Sorted.
From Stdlib Require Import DecimalString.
From Stdlib Require OrderedTypeEx.
Import ListNotations.

Set Implicit Arguments.

Open Scope string_scope.
Open Scope list_scope.

(** ** JavaScript truthiness and strict equality on the values in play *)

Module Js.

(** [!!s] for [s : string | null]: [null] and the empty string are falsy. *)
Definition truthy_string (s : option string) : bool :=
  match s with
  | Some v => negb (String.eqb v EmptyString)
  | None => false
  end.

(** [!!x] for [x : number | null | undefined] with [x] finite: zero is
    falsy, as are [null] and [undefined]. *)
Definition truthy_number (x : option R) : bool :=
  match x with
  | Some v => if Req_dec_T v 0 then false else true
  | None => false
  end.

(** The values compared with [===] in the sources: strings that may be
    [undefined] (a missing property, an optional chain that stopped) or
    [null] (an empty selection). *)
Inductive value :=
| Undefined
| Null
| Str (s : string).

(** [x?.f] read as a value: a missing object or property is [undefined]. *)
Definition or_undefined (s : option string) : value :=
  match s with Some v => Str v | None => Undefined end.

(** A [string | null] read as a value. *)
Definition or_null (s : option string) : value :=
  match s with Some v => Str v | None => Null end.

(** [a === b] *)
Definition strict_eq (a b : value) : bool :=
  match a, b with
  | Str x, Str y => String.eqb x y
  | Undefined, Undefined => true
  | Null, Null => true
  | _, _ => false
  end.

(** The text a template literal gives for [s : string | undefined]. *)
Definition template_string (s : option string) : string :=
  match s with
  | Some v => v
  | None => "undefined"
  end.

(** The text a template literal gives for an integer-valued number. *)
Definition template_int (z : Z) : string :=
  NilZero.string_of_int (Z.to_int z).

End Js.

(** ** The check-in page: distance and proximity *)

Module CheckIn.

Local Open Scope R_scope.

(** [userLocation : {lat: number, lng: number} | null] *)
Record UserLocation := { lat : R; lng : R }.

Record PositionEvent := {
  event_name : string;
  event_date : string;
  event_time : string;
  event_location : string
}.

(** The row read by the position query: the [Position] interface together
    with the [latitude] and [longitude] columns that the query selects and
    [isNearPosition] reads; a column without a value is [null]. *)
Record Position := {
  id : string;
  name : string;
  description : string;
  skill_level : string;
  latitude : option R;
  longitude : option R;
  event : PositionEvent
}.

(** [Math.atan2(y, x)] on real numbers. *)
Definition atan2 (y x : R) : R :=
  match total_order_T x 0 with
  | inright _ => atan (y / x)
  | inleft (left _) =>
      if Rle_dec 0 y then atan (y / x) + PI else atan (y / x) - PI
  | inleft (right _) =>
      match total_order_T y 0 with
      | inright _ => PI / 2
      | inleft (left _) => - (PI / 2)
      | inleft (right _) => 0
      end
  end.

(** [calculateDistance]: the haversine formula, Earth radius [6371e3] m. *)
Definition calculateDistance (lat1 lon1 lat2 lon2 : R) : R :=
  let R_earth := 6371000 in
  let phi1 := lat1 * PI / 180 in
  let phi2 := lat2 * PI / 180 in
  let dphi := (lat2 - lat1) * PI / 180 in
  let dlam := (lon2 - lon1) * PI / 180 in
  let a := sin (dphi / 2) * sin (dphi / 2) +
           cos phi1 * cos phi2 *
           sin (dlam / 2) * sin (dlam / 2) in
  let c := 2 * atan2 (sqrt a) (sqrt (1 - a)) in
  R_earth * c.

(** [position?.latitude] and [position?.longitude] *)
Definition position_latitude (position : option Position) : option R :=
  match position with Some p => latitude p | None => None end.

Definition position_longitude (position : option Position) : option R :=
  match position with Some p => longitude p | None => None end.

(** [isNearPosition], with [userLocation] and [position] made explicit.
    The last branch is not reached: past the guard all three are present. *)
Definition isNearPosition
  (userLocation : option UserLocation) (position : option Position) : bool :=
  if match userLocation with Some _ => false | None => true end
     || negb (Js.truthy_number (position_latitude position))
     || negb (Js.truthy_number (position_longitude position))
  then true
  else
    match userLocation, position_latitude position, position_longitude position with
    | Some u, Some plat, Some plon =>
        let distance := calculateDistance (lat u) (lng u) plat plon in
        if Rle_dec distance 200 then true else false
    | _, _, _ => true
    end.

End CheckIn.

(** ** The data service: the [volunteer_signups] table and its operations

    The store is external; the table is a list of rows in insertion order
    and each operation is what the request built in the sources asks for. *)

Module DataService.

(** A row of [volunteer_signups]: the columns of the [Volunteer] interface
    and of the records written by the import. *)
Record SignupRow := {
  id : string;
  position_id : string;
  volunteer_name : string;
  email : string;
  phone_number : option string;
  start_time : string;
  end_time : string;
  arrived : bool
}.

Definition Table := list SignupRow.

(** The [Insert] shape of [volunteer_signups], as [handleSaveToSupabase]
    fills it: no [id], the store assigns one. *)
Record SignupInsert := {
  ins_position_id : string;
  ins_volunteer_name : string;
  ins_email : string;
  ins_start_time : string;
  ins_end_time : string;
  ins_arrived : bool
}.

(** The order of the [start_time] column. Its type is declared in the
    store, not in the sources, so the order is a parameter: any total
    preorder on the stored values. *)
Record ColumnOrder := {
  col_leb : string -> string -> bool;
  col_total : forall a b, col_leb a b = true \/ col_leb b a = true;
  col_trans : forall a b c,
    col_leb a b = true -> col_leb b c = true -> col_leb a c = true
}.

(** [.eq('position_id', positionId).eq('arrived', false)] *)
Definition eligible (positionId : string) (r : SignupRow) : bool :=
  String.eqb (position_id r) positionId && Bool.eqb (arrived r) false.

(** [.order('start_time', { ascending: true })]: the rows come back in some
    arrangement that ascends on [start_time]; the request names no second
    key, so rows with equal [start_time] may come in any order. *)
Definition ascending (ord : ColumnOrder) (rows : list SignupRow) : Prop :=
  StronglySorted
    (fun a b => col_leb ord (start_time a) (start_time b) = true) rows.

Definition ordered_by_start_time
  (ord : ColumnOrder) (selected rows : list SignupRow) : Prop :=
  Permutation selected rows /\ ascending ord rows.

(** What a query function leaves: the rows, or a thrown error. *)
Inductive QueryOutcome :=
| Rows (data : list SignupRow)
| Thrown (message : string).

(** The volunteers query of the check-in page ([queryFn] of
    [['volunteers', positionId]]). *)
Inductive volunteers_query (ord : ColumnOrder) (t : Table) :
  option string -> QueryOutcome -> Prop :=
| vq_no_position : forall positionId,
    Js.truthy_string positionId = false ->
    volunteers_query ord t positionId (Thrown "No position ID provided")
| vq_rows : forall positionId data,
    Js.truthy_string (Some positionId) = true ->
    ordered_by_start_time ord (filter (eligible positionId) t) data ->
    volunteers_query ord t (Some positionId) (Rows data)
| vq_error : forall positionId message,
    Js.truthy_string (Some positionId) = true ->
    volunteers_query ord t (Some positionId) (Thrown message).

(** One arrangement the store may return: insertion into an ascending
    list, earlier rows first among equal keys. *)
Fixpoint insert_ascending
  (ord : ColumnOrder) (r : SignupRow) (rows : list SignupRow) : list SignupRow :=
  match rows with
  | [] => [r]
  | x :: rest =>
      if col_leb ord (start_time r) (start_time x)
      then r :: x :: rest
      else x :: insert_ascending ord r rest
  end.

Definition sort_ascending (ord : ColumnOrder) (rows : list SignupRow) : list SignupRow :=
  fold_right (insert_ascending ord) [] rows.

(** [.update({ arrived: true }).eq('id', volunteerId)] *)
Definition mark_arrived (r : SignupRow) : SignupRow :=
  {| id := id r;
     position_id := position_id r;
     volunteer_name := volunteer_name r;
     email := email r;
     phone_number := phone_number r;
     start_time := start_time r;
     end_time := end_time r;
     arrived := true |}.

Definition update_arrived (volunteerId : string) (t : Table) : Table :=
  map (fun r => if String.eqb (id r) volunteerId then mark_arrived r else r) t.

(** [.insert(volunteerSignups)]: each record becomes one row, under the
    identifier the store assigns to it. *)
Definition new_row (assigned : string) (v : SignupInsert) : SignupRow :=
  {| id := assigned;
     position_id := ins_position_id v;
     volunteer_name := ins_volunteer_name v;
     email := ins_email v;
     phone_number := None;
     start_time := ins_start_time v;
     end_time := ins_end_time v;
     arrived := ins_arrived v |}.

Definition new_rows (assigned : list string) (vs : list SignupInsert) : list SignupRow :=
  map (fun iv => new_row (fst iv) (snd iv)) (combine assigned vs).

Definition insert_rows
  (assigned : list string) (vs : list SignupInsert) (t : Table) : Table :=
  t ++ new_rows assigned vs.

(** The writes the sources make to [volunteer_signups]: the import's
    insertion, under identifiers not yet in use, and the check-in's update. *)
Inductive write (t : Table) : Table -> Prop :=
| write_insert : forall assigned vs,
    List.length assigned = List.length vs ->
    NoDup assigned ->
    (forall i, In i assigned -> ~ In i (map id t)) ->
    write t (insert_rows assigned vs t)
| write_check_in : forall volunteerId,
    write t (update_arrived volunteerId t).

Inductive writes (t : Table) : Table -> Prop :=
| writes_none : writes t t
| writes_more : forall t1 t2, write t t1 -> writes t1 t2 -> writes t t2.

(** A signup is checked in when it is in the table and every row under
    its identifier has [arrived = true]. *)
Definition checked_in (volunteerId : string) (t : Table) : Prop :=
  In volunteerId (map id t) /\
  forall r, In r t -> id r = volunteerId -> arrived r = true.

(** What the import asks of a stored row: the fields of the roster row it
    comes from, and [arrived = false]. *)
Definition stored_as
  (position_ID name_ email_ start_ end_ : string) (r : SignupRow) : Prop :=
  position_id r = position_ID /\
  volunteer_name r = name_ /\
  email r = email_ /\
  start_time r = start_ /\
  end_time r = end_ /\
  arrived r = false.

(** [checkInMutation]: what the page keeps besides the table. *)
Record CheckInPage := {
  selectedVolunteer : string;
  isLoading : bool;
  volunteers_invalidated : bool;
  toasts : list string
}.

(** [checkInMutation.mutate(volunteerId)]; [error] is the error the store
    answers with, if any. *)
Definition checkInMutation
  (error : option string) (volunteerId : string)
  (t : Table) (page : CheckInPage) : Table * CheckInPage :=
  match error with
  | None =>
      (update_arrived volunteerId t,
       {| selectedVolunteer := EmptyString;
          isLoading := false;
          volunteers_invalidated := true;
          toasts := toasts page ++ ["Check-in successful!"] |})
  | Some message =>
      (t,
       {| selectedVolunteer := selectedVolunteer page;
          isLoading := false;
          volunteers_invalidated := volunteers_invalidated page;
          toasts := toasts page ++ [message] |})
  end.

End DataService.

(** ** A text column: the lexicographic order on strings *)

Module TextColumn.

Import OrderedTypeEx.

Lemma leb_iff (a b : string) :
  String.leb a b = true <-> String_as_OT.lt a b \/ a = b.
Proof.
  unfold String.leb.
  pose proof (String_as_OT.cmp_eq a b) as Heq.
  pose proof (String_as_OT.cmp_lt a b) as Hlt.
  unfold String_as_OT.cmp in Heq, Hlt.
  destruct (String.compare a b); split; intros H; try reflexivity.
  - right. now apply Heq.
  - left. now apply Hlt.
  - discriminate.
  - destruct H as [H | H]; [apply Hlt in H | apply Heq in H]; discriminate.
Qed.

Lemma leb_trans (a b c : string) :
  String.leb a b = true -> String.leb b c = true -> String.leb a c = true.
Proof.
  rewrite !leb_iff.
  intros [Hab | ->] [Hbc | ->]; auto.
  left. eapply String_as_OT.lt_trans; eassumption.
Qed.

Definition order : DataService.ColumnOrder :=
  {| DataService.col_leb := String.leb;
     DataService.col_total := String.leb_total;
     DataService.col_trans := leb_trans |}.

End TextColumn.

(** ** The import: [handleSaveToSupabase] *)

Module SaveToSupabase.

(** [StructuredSignUpData] of [types.ts] *)
Record StructuredSignUpData := {
  id : Z;
  position_ID : string;
  volunteer_name : string;
  volunteer_email : string;
  start_date : string;
  start_datetime : string;
  end_datetime : string;
  arrived : string
}.

Record SaveResult := { success : bool; message : string }.

(** The body of [data.map((item) => ({ ... }))] *)
Definition toVolunteerSignup (item : StructuredSignUpData) : DataService.SignupInsert :=
  {| DataService.ins_position_id := position_ID item;
     DataService.ins_volunteer_name := volunteer_name item;
     DataService.ins_email := volunteer_email item;
     DataService.ins_start_time := start_datetime item;
     DataService.ins_end_time := end_datetime item;
     DataService.ins_arrived := false |}.

(** The store's answer to the insertion: the identifiers it assigned to
    the records, or an error. *)
Inductive InsertAnswer :=
| Inserted (assigned : list string)
| InsertError (message : string).

(** [handleSaveToSupabase]: the table afterwards and the [saveResult]. *)
Definition handleSaveToSupabase
  (data : list StructuredSignUpData) (answer : InsertAnswer)
  (t : DataService.Table) : DataService.Table * SaveResult :=
  if Nat.eqb (List.length data) 0 then
    (t, {| success := false;
           message := "No data to save. Please upload a CSV file first." |})
  else
    let volunteerSignups := map toVolunteerSignup data in
    match answer with
    | InsertError msg =>
        (t, {| success := false;
               message := "Error saving to database: " ++ msg |})
    | Inserted assigned =>
        (DataService.insert_rows assigned volunteerSignups t,
         {| success := true;
            message := "Successfully saved "
                       ++ Js.template_int (Z.of_nat (List.length volunteerSignups))
                       ++ " volunteer records to the database." |})
    end.

End SaveToSupabase.

(** ** The dashboard: the live issue feed *)

Module Event.
Record t := { id : string; name : string; date : string; time : string }.
End Event.

Module Position.
Record t := {
  id : string;
  name : string;
  needed : Z;
  filled : Z;
  latitude : R;
  longitude : R;
  event : Event.t
}.
End Position.

Module Issue.

Inductive kind := error | warning | info.

(** [position?: { id, name, event: { name } }]. The object built from the
    signup lookup has no [id] property. *)
Record event_ref := { event_name : string }.

Record position_ref := {
  position_id : option string;
  position_name : string;
  position_event : event_ref
}.

Record t := {
  id : string;
  type : kind;
  message : string;
  timestamp : string;
  position : option position_ref
}.

(** [issue.position?.event.name] *)
Definition position_event_name (issue : t) : option string :=
  match position issue with
  | Some p => Some (event_name (position_event p))
  | None => None
  end.

End Issue.

Module Overview.

(** [addIssue]'s state update: [prev => [newIssue, ...prev].slice(0, 100)] *)
Definition addIssue (newIssue : Issue.t) (prev : list Issue.t) : list Issue.t :=
  firstn 100 (newIssue :: prev).

(** The callbacks draw identifiers and read the clock, and they call
    [addIssue]; a call queues its update of the [issues] state. [Eff] threads
    the number of identifiers drawn and the calls made, oldest first. *)
Record Ambient := { randomUUID_at : nat -> string; now_ISO : string }.

Record Pending := { drawn : nat; added : list Issue.t }.

Definition Eff (A : Type) : Type := Ambient -> Pending -> A * Pending.

Definition ret {A} (a : A) : Eff A := fun _ s => (a, s).

Definition bind {A B} (m : Eff A) (k : A -> Eff B) : Eff B :=
  fun env s => let (a, s') := m env s in k a env s'.

Notation "x <- m ;; k" := (bind m (fun x => k))
  (at level 61, m at next level, right associativity).

(** [crypto.randomUUID()] *)
Definition randomUUID : Eff string :=
  fun env s =>
    (randomUUID_at env (drawn s), {| drawn := S (drawn s); added := added s |}).

(** [new Date().toISOString()] *)
Definition toISOString_now : Eff string :=
  fun env s => (now_ISO env, s).

(** A call [addIssue(newIssue)] *)
Definition call_addIssue (newIssue : Issue.t) : Eff unit :=
  fun _ s => (tt, {| drawn := drawn s; added := added s ++ [newIssue] |}).

(** [xs.forEach(f)] *)
Fixpoint forEach {A} (xs : list A) (f : A -> Eff unit) : Eff unit :=
  match xs with
  | [] => ret tt
  | x :: rest => _ <- f x ;; forEach rest f
  end.

(** The queued updates applied to the [issues] state, in call order. *)
Definition apply_added (calls : list Issue.t) (issues : list Issue.t) : list Issue.t :=
  fold_left (fun prev newIssue => addIssue newIssue prev) calls issues.

(** Running a callback on the [issues] state. *)
Definition run (m : Eff unit) (env : Ambient) (drawn0 : nat)
  (issues : list Issue.t) : list Issue.t :=
  apply_added (added (snd (m env {| drawn := drawn0; added := [] |}))) issues.

(** The calls a callback makes. *)
Definition calls_of (m : Eff unit) (env : Ambient) (drawn0 : nat) : list Issue.t :=
  added (snd (m env {| drawn := drawn0; added := [] |})).

(** *** The staffing interval *)

(** [{ id: position.id, name: position.name, event: position.event }] *)
Definition position_ref_of (position : Position.t) : Issue.position_ref :=
  {| Issue.position_id := Some (Position.id position);
     Issue.position_name := Position.name position;
     Issue.position_event :=
       {| Issue.event_name := Event.name (Position.event position) |} |}.

(** The callback given to [positions.forEach] *)
Definition check_position (position : Position.t) : Eff unit :=
  if Z.ltb (Position.filled position) (Position.needed position) then
    uuid <- randomUUID ;;
    stamp <- toISOString_now ;;
    call_addIssue
      {| Issue.id := uuid;
         Issue.type := Issue.warning;
         Issue.message :=
           "Position " ++ Position.name position
           ++ " is understaffed ("
           ++ Js.template_int (Position.filled position) ++ "/"
           ++ Js.template_int (Position.needed position) ++ ")";
         Issue.timestamp := stamp;
         Issue.position := Some (position_ref_of position) |}
  else ret tt.

(** The callback of [setInterval(..., 60000)]; [positions] is [undefined]
    until the positions query has data. *)
Definition staffingInterval (positions : option (list Position.t)) : Eff unit :=
  match positions with
  | Some ps => forEach ps check_position
  | None => ret tt
  end.

(** *** The signup subscription *)

Inductive eventType := INSERT | UPDATE | DELETE.

(** [payload]: the change kind and the columns of [payload.new] read. *)
Record Payload := {
  payload_eventType : eventType;
  new_position_id : string;
  new_volunteer_name : string
}.

(** The object of [.select('name, event:events(name)')]: a name and the
    event's name, nothing else. *)
Record LookupEvent := { lookup_event_name : string }.

Record Lookup := { lookup_name : string; lookup_event : LookupEvent }.

(** [.eq('id', position_id).single()]: the data is [null] unless exactly
    one row matches. *)
Definition lookup_position
  (positions : list Position.t) (position_id : string) : option Lookup :=
  match filter (fun p => String.eqb (Position.id p) position_id) positions with
  | [p] =>
      Some {| lookup_name := Position.name p;
              lookup_event :=
                {| lookup_event_name := Event.name (Position.event p) |} |}
  | _ => None
  end.

(** [(position?.event as any)?.id]: the selected object carries no [id]. *)
Definition lookup_event_id (position : option Lookup) : Js.value :=
  Js.Undefined.

(** [position as any], stored in the issue *)
Definition lookup_as_position (position : option Lookup) : option Issue.position_ref :=
  match position with
  | Some p =>
      Some {| Issue.position_id := None;
              Issue.position_name := lookup_name p;
              Issue.position_event :=
                {| Issue.event_name := lookup_event_name (lookup_event p) |} |}
  | None => None
  end.

(** The subscription's callback, after the awaited lookup gave [position]. *)
Definition onSignupChange
  (selectedEventId : option string) (position : option Lookup)
  (payload : Payload) : Eff unit :=
  match payload_eventType payload with
  | INSERT =>
      if negb (Js.truthy_string selectedEventId)
         || Js.strict_eq (lookup_event_id position) (Js.or_null selectedEventId)
      then
        uuid <- randomUUID ;;
        stamp <- toISOString_now ;;
        call_addIssue
          {| Issue.id := uuid;
             Issue.type := Issue.info;
             Issue.message :=
               "New volunteer " ++ new_volunteer_name payload
               ++ " signed up for "
               ++ Js.template_string (option_map lookup_name position);
             Issue.timestamp := stamp;
             Issue.position := lookup_as_position position |}
      else ret tt
  | _ => ret tt
  end.

(** *** The feed view *)

(** [events.find(e => e.id === selectedEventId)?.name] *)
Definition selected_event_name
  (events : list Event.t) (selectedEventId : option string) : option string :=
  option_map Event.name
    (find (fun e => Js.strict_eq (Js.Str (Event.id e)) (Js.or_null selectedEventId))
          events).

(** The predicate of [issues.filter(...)] in the feed *)
Definition issue_shown
  (selectedEventId : option string) (events : list Event.t)
  (issue : Issue.t) : bool :=
  negb (Js.truthy_string selectedEventId)
  || Js.strict_eq (Js.or_undefined (Issue.position_event_name issue))
                  (Js.or_undefined (selected_event_name events selectedEventId)).

Definition shown_issues
  (selectedEventId : option string) (events : list Event.t)
  (issues : list Issue.t) : list Issue.t :=
  filter (issue_shown selectedEventId events) issues.

End Overview.

(** ** Sample data used by the examples below *)

Module Samples.

Definition fun_run : CheckIn.PositionEvent :=
  {| CheckIn.event_name := "5K Run";
     CheckIn.event_date := "2024-06-01";
     CheckIn.event_time := "08:00";
     CheckIn.event_location := "Riverside Park" |}.

(** A check-in point on the equator, at 78 degrees west. *)
Definition equator_station : CheckIn.Position :=
  {| CheckIn.id := "p-eq";
     CheckIn.name := "Water Station";
     CheckIn.description := "";
     CheckIn.skill_level := "";
     CheckIn.latitude := Some 0%R;
     CheckIn.longitude := Some (-78)%R;
     CheckIn.event := fun_run |}.

(** A position saved without coordinates. *)
Definition unplaced_station : CheckIn.Position :=
  {| CheckIn.id := "p-none";
     CheckIn.name := "Registration";
     CheckIn.description := "";
     CheckIn.skill_level := "";
     CheckIn.latitude := None;
     CheckIn.longitude := None;
     CheckIn.event := fun_run |}.

(** A user on the equator, one degree of longitude west of that point. *)
Definition one_degree_west : CheckIn.UserLocation :=
  {| CheckIn.lat := 0%R; CheckIn.lng := (-79)%R |}.

(** Two signups for the same position and the same start time, in the
    order of their insertion. *)
Definition first_signup : DataService.SignupRow :=
  {| DataService.id := "s-1";
     DataService.position_id := "p-1";
     DataService.volunteer_name := "Ada";
     DataService.email := "ada@example.org";
     DataService.phone_number := None;
     DataService.start_time := "09:00";
     DataService.end_time := "11:00";
     DataService.arrived := false |}.

Definition second_signup : DataService.SignupRow :=
  {| DataService.id := "s-2";
     DataService.position_id := "p-1";
     DataService.volunteer_name := "Grace";
     DataService.email := "grace@example.org";
     DataService.phone_number := None;
     DataService.start_time := "09:00";
     DataService.end_time := "11:00";
     DataService.arrived := false |}.

Definition two_signups : DataService.Table := [first_signup; second_signup].

Definition idle_page : DataService.CheckInPage :=
  {| DataService.selectedVolunteer := "s-1";
     DataService.isLoading := false;
     DataService.volunteers_invalidated := false;
     DataService.toasts := [] |}.

(** One row of an imported roster. *)
Definition imported_row : SaveToSupabase.StructuredSignUpData :=
  {| SaveToSupabase.id := 1%Z;
     SaveToSupabase.position_ID := "p-1";
     SaveToSupabase.volunteer_name := "Ada Lovelace";
     SaveToSupabase.volunteer_email := "ada@example.org";
     SaveToSupabase.start_date := "06/01/2024";
     SaveToSupabase.start_datetime := "9:00am";
     SaveToSupabase.end_datetime := "11:00am";
     SaveToSupabase.arrived := "" |}.

(** The dashboard's surroundings: identifiers drawn in sequence and a
    fixed reading of the clock. *)
Definition ambient : Overview.Ambient :=
  {| Overview.randomUUID_at := fun n => Js.template_int (Z.of_nat n);
     Overview.now_ISO := "2024-06-01T08:00:00.000Z" |}.

Definition run_5k : Event.t :=
  {| Event.id := "evt-1"; Event.name := "5K Run";
     Event.date := "2024-06-01"; Event.time := "08:00" |}.


(** An issue without a position reference. *)
Definition unreferenced_issue : Issue.t :=
  {| Issue.id := "0";
     Issue.type := Issue.info;
     Issue.message := "New volunteer Ada signed up for undefined";
     Issue.timestamp := "2024-06-01T08:00:00.000Z";
     Issue.position := None |}.

End Samples.

(** ** Text: the string operations of the roster upload

    A [string] is read as a sequence of code units below 256. *)

Module Text.

Definition is_space (c : Ascii.ascii) : bool :=
  Ascii.eqb c (Ascii.ascii_of_nat 32).

(** The white space and line terminators that [trim] removes, among the
    code units below 256: TAB, LF, VT, FF, CR, SP and NBSP. *)
Definition is_white (c : Ascii.ascii) : bool :=
  existsb (fun n => Ascii.eqb c (Ascii.ascii_of_nat n))
          [9; 10; 11; 12; 13; 32; 160]%nat.

(** [s.trimStart()] *)
Fixpoint trimStart (s : string) : string :=
  match s with
  | EmptyString => EmptyString
  | String c rest => if is_white c then trimStart rest else s
  end.

(** [s.trimEnd()] *)
Fixpoint trimEnd (s : string) : string :=
  match s with
  | EmptyString => EmptyString
  | String c rest =>
      match trimEnd rest with
      | EmptyString => if is_white c then EmptyString else String c EmptyString
      | kept => String c kept
      end
  end.

(** [s.trim()] *)
Definition trim (s : string) : string := trimEnd (trimStart s).

(** [s.split(' ')]: the pieces between single spaces, at least one. *)
Fixpoint split_space (s : string) : list string :=
  match s with
  | EmptyString => [EmptyString]
  | String c rest =>
      if is_space c then EmptyString :: split_space rest
      else
        match split_space rest with
        | piece :: pieces => String c piece :: pieces
        | [] => [String c EmptyString]
        end
  end.

(** [x || d] for [x : string | undefined] *)
Definition or_else (x : option string) (d : string) : string :=
  match x with
  | Some v => if String.eqb v EmptyString then d else v
  | None => d
  end.

(** [xs.filter(Boolean)] on strings *)
Definition filter_Boolean (xs : list string) : list string :=
  filter (fun x => negb (String.eqb x EmptyString)) xs.

(** [xs.join(' ')] *)
Definition join_space (xs : list string) : string := String.concat " " xs.

(** Whether a string has a space, and whether it begins or ends with white
    space. *)
Fixpoint has_space (s : string) : bool :=
  match s with
  | EmptyString => false
  | String c rest => is_space c || has_space rest
  end.

Definition starts_white (s : string) : bool :=
  match s with
  | EmptyString => false
  | String c _ => is_white c
  end.

Fixpoint ends_white (s : string) : bool :=
  match s with
  | EmptyString => false
  | String c EmptyString => is_white c
  | String _ rest => ends_white rest
  end.

Fixpoint all_white (s : string) : bool :=
  match s with
  | EmptyString => true
  | String c rest => is_white c && all_white rest
  end.

(** What a name column reads as: nothing, when the column is missing or
    holds white space only; else the text between the white space around
    it. *)
Definition reads_as (column : option string) (core : string) : Prop :=
  (core = EmptyString /\
   (column = None \/ exists w, column = Some w /\ all_white w = true)) \/
  (core <> EmptyString /\
   starts_white core = false /\ ends_white core = false /\
   exists pre post,
     all_white pre = true /\ all_white post = true /\
     column = Some (pre ++ core ++ post)%string).

End Text.

(** ** The roster upload: [handleFileUpload] of [App.tsx]

    In [App.tsx] the function stands after the component's first [return];
    it is modelled as written. *)

Module Upload.

(** [RawSignUpData]: the columns the upload reads; a column the file does
    not have is [undefined]. *)
Record RawSignUpData := {
  Item : option string;
  First_Name : option string;
  Last_Name : option string;
  Email : option string;
  Start_Date_Time : option string;
  End_Date_Time : option string
}.

(** [const [a = '', b = ''] = pieces] *)
Definition first_piece (pieces : list string) : string :=
  match pieces with
  | a :: _ => a
  | [] => EmptyString
  end.

Definition second_piece (pieces : list string) : string :=
  match pieces with
  | _ :: b :: _ => b
  | _ => EmptyString
  end.

(** The callback of [rawData.map((item, index) => ...)] *)
Definition structure (item : RawSignUpData) (index : nat)
  : SaveToSupabase.StructuredSignUpData :=
  let startDateTime := Text.or_else (Start_Date_Time item) "" in
  let startPieces := Text.split_space startDateTime in
  let startDate := first_piece startPieces in
  let startTime := second_piece startPieces in
  let endPieces := Text.split_space (Text.or_else (End_Date_Time item) "") in
  let endTime := second_piece endPieces in
  let firstName := Text.or_else (option_map Text.trim (First_Name item)) "" in
  let lastName := Text.or_else (option_map Text.trim (Last_Name item)) "" in
  let fullName := Text.join_space (Text.filter_Boolean [firstName; lastName]) in
  {| SaveToSupabase.id := Z.of_nat index + 1;
     SaveToSupabase.position_ID := Text.or_else (Item item) "No Position";
     SaveToSupabase.volunteer_name := Text.or_else (Some fullName) "No Name";
     SaveToSupabase.volunteer_email := Text.or_else (Email item) "No Email";
     SaveToSupabase.start_date := Text.or_else (Some startDate) "No Date";
     SaveToSupabase.start_datetime := Text.or_else (Some startTime) "No Time";
     SaveToSupabase.end_datetime := Text.or_else (Some endTime) "No Time";
     SaveToSupabase.arrived := "" |}.

(** [xs.map((x, index) => f(x, index))], counting from [index] *)
Fixpoint map_indexed {A B} (f : A -> nat -> B) (index : nat) (xs : list A) : list B :=
  match xs with
  | [] => []
  | x :: rest => f x index :: map_indexed f (S index) rest
  end.

(** What the parser hands to [handleFileUpload]'s callbacks. *)
Inductive ParseResult :=
| Complete (rawData : list RawSignUpData)
| ParseError (message : string).

(** [handleFileUpload]: the [data] state afterwards. *)
Definition handleFileUpload
  (result : ParseResult) (data : list SaveToSupabase.StructuredSignUpData)
  : list SaveToSupabase.StructuredSignUpData :=
  match result with
  | Complete rawData => map_indexed structure 0 rawData
  | ParseError _ => data
  end.

(** [retryDelay] of the query client:
    [(attemptIndex) => Math.min(1000 * 2 ** attemptIndex, 30000)] *)
Definition retryDelay (attemptIndex : nat) : Z :=
  Z.min (1000 * 2 ^ Z.of_nat attemptIndex) 30000.

End Upload.

(** ** The dashboard: tiles, panel, map and selection *)

Module Dashboard.

(** [p.event.id === selectedEventId] *)
Definition of_event (selectedEventId : option string) (p : Position.t) : bool :=
  Js.strict_eq (Js.Str (Event.id (Position.event p))) (Js.or_null selectedEventId).

(** [filteredPositions] *)
Definition filteredPositions
  (selectedEventId : option string) (positions : list Position.t) : list Position.t :=
  if Js.truthy_string selectedEventId
  then filter (of_event selectedEventId) positions
  else positions.

(** The three tiles: [filteredPositions.length],
    [filteredPositions.filter(p => p.filled >= p.needed).length] and
    [filteredPositions.filter(p => p.filled < p.needed).length]. *)
Definition total_positions
  (selectedEventId : option string) (positions : list Position.t) : nat :=
  List.length (filteredPositions selectedEventId positions).

Definition filled_positions
  (selectedEventId : option string) (positions : list Position.t) : nat :=
  List.length
    (filter (fun p => Z.geb (Position.filled p) (Position.needed p))
            (filteredPositions selectedEventId positions)).

Definition needs_volunteers
  (selectedEventId : option string) (positions : list Position.t) : nat :=
  List.length
    (filter (fun p => Z.ltb (Position.filled p) (Position.needed p))
            (filteredPositions selectedEventId positions)).

(** The live-updates panel: a card per shown issue, and the note
    "No issues to report" when [issues.length === 0]. *)
Inductive PanelItem :=
| Card (issue : Issue.t)
| NoIssuesNote.

Definition feed_panel
  (selectedEventId : option string) (events : list Event.t)
  (issues : list Issue.t) : list PanelItem :=
  map Card (Overview.shown_issues selectedEventId events issues)
  ++ (if Nat.eqb (List.length issues) 0 then [NoIssuesNote] else []).

(** [Math.min(...xs)] and [Math.max(...xs)] of a non-empty array; the
    sources spread no other. *)
Definition Math_min (xs : list R) : R :=
  match xs with
  | [] => 0%R
  | x :: rest => fold_left Rmin rest x
  end.

Definition Math_max (xs : list R) : R :=
  match xs with
  | [] => 0%R
  | x :: rest => fold_left Rmax rest x
  end.

(** What [MapUpdater]'s effect asks of the map. *)
Inductive MapCall :=
| fitBounds (south west north east : R)
| setView (lat lng : R) (zoom : Z)
| no_call.

(** The effect of [MapUpdater] *)
Definition MapUpdater
  (positions : list Position.t) (selectedEventId : option string) : MapCall :=
  if Js.truthy_string selectedEventId && Nat.ltb 0 (List.length positions) then
    let eventPositions := filter (of_event selectedEventId) positions in
    if Nat.ltb 0 (List.length eventPositions) then
      let latitudes := map Position.latitude eventPositions in
      let longitudes := map Position.longitude eventPositions in
      let minLat := Math_min latitudes in
      let maxLat := Math_max latitudes in
      let minLng := Math_min longitudes in
      let maxLng := Math_max longitudes in
      fitBounds minLat minLng maxLat maxLng
    else no_call
  else if Nat.ltb 0 (List.length positions) then
    let latitudes := map Position.latitude positions in
    let longitudes := map Position.longitude positions in
    let centerLat := ((Math_min latitudes + Math_max latitudes) / 2)%R in
    let centerLng := ((Math_min longitudes + Math_max longitudes) / 2)%R in
    setView centerLat centerLng 13
  else no_call.

(** The search parameters of the page's address. *)
Definition SearchParams := list (string * string).

(** [searchParams.get(key)] *)
Definition get (searchParams : SearchParams) (key : string) : option string :=
  option_map snd (find (fun kv => String.eqb (fst kv) key) searchParams).

(** The initial [selectedEventId]: [searchParams.get('eventId')] *)
Definition initial_selection (searchParams : SearchParams) : option string :=
  get searchParams "eventId".

(** The select's [onChange]: [e.target.value || null] *)
Definition onSelectChange (value : string) : option string :=
  if Js.truthy_string (Some value) then Some value else None.

(** The effect that writes the selection back:
    [setSearchParams({ eventId: selectedEventId })] or [setSearchParams({})]. *)
Definition selection_effect (selectedEventId : option string) : SearchParams :=
  match selectedEventId with
  | Some v => if Js.truthy_string (Some v) then [("eventId", v)] else []
  | None => []
  end.

End Dashboard.

(** ** The check-in page: what it renders and what a click submits *)

Module CheckInView.

(** The line under the position details,
    [{userLocation && position.latitude && position.longitude && (...)}]:
    nothing for [null], the text [0] for a coordinate that is zero, else the
    near/away hint. *)
Inductive ProximityLine :=
| no_line
| zero_text
| hint (near : bool).

Definition proximity_line
  (userLocation : option CheckIn.UserLocation)
  (position : CheckIn.Position) : ProximityLine :=
  match userLocation with
  | None => no_line
  | Some _ =>
      match CheckIn.latitude position with
      | None => no_line
      | Some plat =>
          if Js.truthy_number (Some plat) then
            match CheckIn.longitude position with
            | None => no_line
            | Some plon =>
                if Js.truthy_number (Some plon)
                then hint (CheckIn.isNearPosition userLocation (Some position))
                else zero_text
            end
          else zero_text
      end
  end.

(** [volunteers && volunteers.length > 0 ? (select and button) : (note)] *)
Inductive Controls :=
| select_and_button (options : list DataService.SignupRow)
| no_volunteers_note.

Definition controls_for (volunteers : option (list DataService.SignupRow)) : Controls :=
  match volunteers with
  | Some (v :: vs) => select_and_button (v :: vs)
  | _ => no_volunteers_note
  end.

Inductive View :=
| Loading
| Failed (errorMessage : string)
| PositionNotFound
| Form (line : ProximityLine) (locationError : option string) (controls : Controls).

(** The render of [CheckInPage]; an error is the message of its [Error]. *)
Definition render
  (positionLoading volunteersLoading isLoading : bool)
  (positionError volunteersError : option string)
  (position : option CheckIn.Position)
  (volunteers : option (list DataService.SignupRow))
  (userLocation : option CheckIn.UserLocation)
  (locationError : option string) : View :=
  if positionLoading || volunteersLoading || isLoading then Loading
  else
    match positionError, volunteersError with
    | Some message, _ => Failed message
    | None, Some message => Failed message
    | None, None =>
        match position with
        | None => PositionNotFound
        | Some p =>
            Form (proximity_line userLocation p) locationError
                 (controls_for volunteers)
        end
    end.

(** A click on "Check In": the button is [disabled] when
    [!selectedVolunteer || isLoading]; its handler is
    [selectedVolunteer && checkInMutation.mutate(selectedVolunteer)]. The
    result is the identifier handed to [mutate], if any. *)
Definition onCheckInClick (page : DataService.CheckInPage) : option string :=
  if negb (Js.truthy_string (Some (DataService.selectedVolunteer page)))
     || DataService.isLoading page
  then None
  else if Js.truthy_string (Some (DataService.selectedVolunteer page))
       then Some (DataService.selectedVolunteer page)
       else None.

End CheckInView.

(** ** The positions page: the writes to [volunteer_positions] *)

Module PositionsPage.

(** [Position] of the positions page, with the owner column the page writes. *)
Record PositionRow := {
  id : string;
  user_id : option string;
  event_id : string;
  name : string;
  needed : Z;
  filled : Z;
  description : option string;
  skill_level : option string;
  latitude : R;
  longitude : R
}.

Record PositionFormData := {
  form_event_id : string;
  form_name : string;
  form_needed : Z;
  form_description : string;
  form_skill_level : string;
  form_latitude : R;
  form_longitude : R
}.

Definition Table := list PositionRow.

(** [createMutation]: [.insert([{ ...data, user_id: user?.id, filled: 0 }])],
    under the identifier the store assigns. *)
Definition created_row
  (assigned : string) (user : option string) (data : PositionFormData) : PositionRow :=
  {| id := assigned;
     user_id := user;
     event_id := form_event_id data;
     name := form_name data;
     needed := form_needed data;
     filled := 0;
     description := Some (form_description data);
     skill_level := Some (form_skill_level data);
     latitude := form_latitude data;
     longitude := form_longitude data |}.

Definition createMutation
  (assigned : string) (user : option string) (data : PositionFormData)
  (t : Table) : Table :=
  t ++ [created_row assigned user data].

(** [updateMutation] as [onSubmit] calls it, with [{ ...data, id }]:
    [.update(data).eq('id', data.id)] sets the form's columns. *)
Definition updated_row (data : PositionFormData) (r : PositionRow) : PositionRow :=
  {| id := id r;
     user_id := user_id r;
     event_id := form_event_id data;
     name := form_name data;
     needed := form_needed data;
     filled := filled r;
     description := Some (form_description data);
     skill_level := Some (form_skill_level data);
     latitude := form_latitude data;
     longitude := form_longitude data |}.

Definition updateMutation
  (positionId : string) (data : PositionFormData) (t : Table) : Table :=
  map (fun r => if String.eqb (id r) positionId then updated_row data r else r) t.

(** [deleteMutation]: [.delete().eq('id', id)] *)
Definition deleteMutation (positionId : string) (t : Table) : Table :=
  filter (fun r => negb (String.eqb (id r) positionId)) t.

(** [onSubmit]: an edit in progress makes the submission an update of the
    edited position, else it creates one. *)
Definition onSubmit
  (editingPosition : option PositionRow) (assigned : string)
  (user : option string) (data : PositionFormData) (t : Table) : Table :=
  match editingPosition with
  | Some edited => updateMutation (id edited) data t
  | None => createMutation assigned user data t
  end.

(** The writes of the page that the store accepts. *)
Inductive write (t : Table) : Table -> Prop :=
| write_submit : forall editingPosition assigned user data,
    write t (onSubmit editingPosition assigned user data t)
| write_delete : forall positionId,
    write t (deleteMutation positionId t).

Inductive writes (t : Table) : Table -> Prop :=
| writes_none : writes t t
| writes_more : forall t1 t2, write t t1 -> writes t1 t2 -> writes t t2.

End PositionsPage.

(** ** Further sample data *)

Module Fixtures.

(** A later event under the name of the sample event, and one of its
    positions, short of volunteers. *)
Definition run_5k_again : Event.t :=
  {| Event.id := "evt-2"; Event.name := "5K Run";
     Event.date := "2024-09-01"; Event.time := "08:00" |}.

Definition aid_station : Position.t :=
  {| Position.id := "p-7";
     Position.name := "Aid Station";
     Position.needed := 2;
     Position.filled := 0;
     Position.latitude := 1%R;
     Position.longitude := (-78)%R;
     Position.event := run_5k_again |}.

(** A line of a roster file without an end time and with a padded name. *)
Definition roster_line : Upload.RawSignUpData :=
  {| Upload.Item := Some "p-1";
     Upload.First_Name := Some " Ada ";
     Upload.Last_Name := Some "Lovelace";
     Upload.Email := Some "ada@example.org";
     Upload.Start_Date_Time := Some "06/01/2024 9:00 AM";
     Upload.End_Date_Time := None |}.

Definition water_station : Position.t :=
  {| Position.id := "p-1";
     Position.name := "Water Station";
     Position.needed := 3;
     Position.filled := 1;
     Position.latitude := 0%R;
     Position.longitude := (-78)%R;
     Position.event := Samples.run_5k |}.

(** A notification of a new signup for that position. *)
Definition signup_for_water_station : Overview.Payload :=
  {| Overview.payload_eventType := Overview.INSERT;
     Overview.new_position_id := "p-1";
     Overview.new_volunteer_name := "Grace" |}.

(** A check-in point off the equator and off the Greenwich meridian. *)
Definition hill_station : CheckIn.Position :=
  {| CheckIn.id := "p-2";
     CheckIn.name := "Finish Line";
     CheckIn.description := "";
     CheckIn.skill_level := "";
     CheckIn.latitude := Some 1%R;
     CheckIn.longitude := Some (-78)%R;
     CheckIn.event := Samples.fun_run |}.

(** The sample table once both signups have arrived. *)
Definition all_arrived : DataService.Table :=
  DataService.update_arrived "s-2"
    (DataService.update_arrived "s-1" Samples.two_signups).


End Fixtures.

(** * Properties *)

(** ** Distance and proximity *)

Section Proximity.

Import CheckIn.
Local Open Scope R_scope.


Lemma atan2_sin_cos (x : R) :
  - (PI / 2) < x < PI / 2 -> atan2 (sin x) (cos x) = x.
Proof.
  intros Hx.
  assert (Hcos : 0 < cos x) by (apply cos_gt_0; lra).
  unfold atan2.
  destruct (total_order_T (cos x) 0) as [[Hlt | Heq] | Hgt]; try lra.
  change (sin x / cos x) with (tan x).
  now apply atan_tan.
Qed.


(** Along the equator the formula gives the arc for the longitude gap. *)
Lemma calculateDistance_equator (lon1 lon2 : R) :
  0 <= lon2 - lon1 < 180 ->
  calculateDistance 0 lon1 0 lon2 = 6371000 * ((lon2 - lon1) * PI / 180).
Proof.
  intros [Hd0 Hd180].
  pose proof PI_RGT_0 as Hpi.
  set (h := (lon2 - lon1) * PI / 180 / 2).
  assert (Hh : 0 <= h < PI / 2).
  { unfold h. split.
    - apply Rmult_le_pos; [| lra].
      apply Rmult_le_pos; [| lra].
      apply Rmult_le_pos; lra.
    - apply Rmult_lt_reg_r with (r := 360); [lra |].
      replace ((lon2 - lon1) * PI / 180 / 2 * 360)
        with ((lon2 - lon1) * PI) by field.
      replace (PI / 2 * 360) with (180 * PI) by field.
      apply Rmult_lt_compat_r; lra. }
  assert (Hsin : 0 <= sin h) by (apply sin_ge_0; lra).
  assert (Hcos : 0 < cos h) by (apply cos_gt_0; lra).
  unfold calculateDistance. cbv zeta.
  replace ((0 - 0) * PI / 180 / 2) with 0 by field.
  replace (0 * PI / 180) with 0 by field.
  fold h.
  rewrite sin_0, cos_0.
  replace (0 * 0 + 1 * 1 * sin h * sin h) with (sin h * sin h) by ring.
  rewrite sqrt_square by exact Hsin.
  replace (1 - sin h * sin h) with (cos h * cos h).
  2:{ pose proof (sin2_cos2 h) as E. unfold Rsqr in E. lra. }
  rewrite sqrt_square by lra.
  rewrite atan2_sin_cos by lra.
  unfold h. field.
Qed.

(** The gate compares the distance with 200 once both coordinates of the
    position are non-zero. *)
Lemma isNearPosition_nonzero
  (u : UserLocation) (p : Position) (plat plon : R) :
  latitude p = Some plat -> longitude p = Some plon ->
  plat <> 0 -> plon <> 0 ->
  (isNearPosition (Some u) (Some p) = true <->
   calculateDistance (lat u) (lng u) plat plon <= 200).
Proof.
  intros Hlat Hlon Hnz1 Hnz2.
  unfold isNearPosition, position_latitude, position_longitude.
  rewrite Hlat, Hlon. simpl.
  destruct (Req_dec_T plat 0) as [E | _]; [contradiction |].
  destruct (Req_dec_T plon 0) as [E | _]; [contradiction |].
  simpl.
  destruct (Rle_dec (calculateDistance (lat u) (lng u) plat plon) 200);
    split; intros H; try assumption; try reflexivity; try discriminate.
  contradiction.
Qed.


(** C8. When the user location is absent, or the position has no latitude
    or no longitude, the gate answers [true]. *)
Theorem isNearPosition_location_absent
  (userLocation : option UserLocation) (position : option Position) :
  userLocation = None \/
  position_latitude position = None \/
  position_longitude position = None ->
  isNearPosition userLocation position = true.
Proof.
  intros [Hu | [Hlat | Hlon]]; unfold isNearPosition.
  - rewrite Hu. reflexivity.
  - rewrite Hlat. simpl. now rewrite orb_true_r.
  - rewrite Hlon. simpl. now rewrite orb_true_r.
Qed.

Lemma isNearPosition_location_absent_witness :
  (@None UserLocation = None \/
   position_latitude (Some Samples.unplaced_station) = None \/
   position_longitude (Some Samples.unplaced_station) = None) /\
  isNearPosition None (Some Samples.unplaced_station) = true.
Proof.
  split.
  - left. reflexivity.
  - apply isNearPosition_location_absent. left. reflexivity.
Defined.

(** C1. At a position on the equator the gate answers [true] although the
    user stands more than 200 m away: a latitude of zero is read as a missing
    latitude, and the distance is never computed. *)
Theorem isNearPosition_zero_latitude_far :
  position_latitude (Some Samples.equator_station) = Some 0 /\
  position_longitude (Some Samples.equator_station) = Some (-78) /\
  200 < calculateDistance
          (lat Samples.one_degree_west) (lng Samples.one_degree_west) 0 (-78) /\
  isNearPosition (Some Samples.one_degree_west)
                 (Some Samples.equator_station) = true.
Proof.
  repeat split.
  - simpl. rewrite calculateDistance_equator by lra.
    pose proof PI2_1. lra.
  - unfold isNearPosition. simpl.
    destruct (Req_dec_T 0 0) as [_ | Hne]; [reflexivity | now elim Hne].
Qed.

End Proximity.

(** ** The live issue feed *)

Section Feed.

Import Overview.

Lemma addIssue_length (newIssue : Issue.t) (prev : list Issue.t) :
  List.length (addIssue newIssue prev) <= 100.
Proof. unfold addIssue. apply firstn_le_length. Qed.

(** Truncating before the next insertion loses nothing the insertion keeps. *)
Lemma addIssue_firstn (newIssue : Issue.t) (l : list Issue.t) :
  addIssue newIssue (firstn 100 l) = firstn 100 (newIssue :: l).
Proof.
  unfold addIssue.
  change 100 with (S 99) at 1 3.
  rewrite !firstn_cons, firstn_firstn.
  reflexivity.
Qed.

Lemma apply_added_firstn (calls issues : list Issue.t) :
  apply_added calls (firstn 100 issues) = firstn 100 (rev calls ++ issues).
Proof.
  unfold apply_added. revert issues.
  induction calls as [| c calls IH]; intros issues; cbn [fold_left rev].
  - reflexivity.
  - rewrite addIssue_firstn, IH, <- app_assoc.
    reflexivity.
Qed.

(** From a feed within the bound, the insertions come first, the latest on
    top, and the cut falls on what was there longest. *)
Lemma apply_added_bounded (calls issues : list Issue.t) :
  List.length issues <= 100 ->
  apply_added calls issues = firstn 100 (rev calls ++ issues).
Proof.
  intros Hlen.
  rewrite <- apply_added_firstn, firstn_all2 by exact Hlen.
  reflexivity.
Qed.

(** C3. After any sequence of insertions into the initially empty feed, the
    feed holds at most 100 entries: the latest insertions, the most recent
    first; what was inserted before them is gone. *)
Theorem feed_bounded_most_recent_first (insertions : list Issue.t) :
  List.length (apply_added insertions []) <= 100 /\
  apply_added insertions [] = firstn 100 (rev insertions) /\
  apply_added insertions [] =
    rev (skipn (List.length insertions - 100) insertions).
Proof.
  assert (E : apply_added insertions [] = firstn 100 (rev insertions)).
  { rewrite apply_added_bounded by (simpl; lia).
    now rewrite app_nil_r. }
  repeat split.
  - rewrite E. apply firstn_le_length.
  - exact E.
  - rewrite E. apply firstn_rev.
Qed.

(** The feed after a callback ran on a feed within the bound. *)
Lemma run_feed (m : Eff unit) (env : Ambient) (n : nat) (issues : list Issue.t) :
  List.length issues <= 100 ->
  run m env n issues = firstn 100 (rev (calls_of m env n) ++ issues).
Proof. intros H. unfold run, calls_of. now apply apply_added_bounded. Qed.

(** What the check of one position adds to the calls made so far. *)
Lemma check_position_added (p : Position.t) (env : Ambient) (s : Pending) :
  exists s1,
    check_position p env s = (tt, s1) /\
    if Z.ltb (Position.filled p) (Position.needed p)
    then exists issue,
           added s1 = added s ++ [issue] /\
           Issue.type issue = Issue.warning /\
           Issue.position issue = Some (position_ref_of p)
    else added s1 = added s.
Proof.
  unfold check_position.
  destruct (Z.ltb (Position.filled p) (Position.needed p)).
  - eexists. split; [reflexivity |].
    eexists. cbn [added]. repeat split.
  - exists s. split; reflexivity.
Qed.

(** What one pass of the staffing check adds to the calls made so far. *)
Lemma staffingInterval_added (ps : list Position.t) (env : Ambient) (s : Pending) :
  exists ws,
    added (snd (staffingInterval (Some ps) env s)) = added s ++ ws /\
    Forall2
      (fun position issue =>
         Issue.type issue = Issue.warning /\
         Issue.position issue = Some (position_ref_of position))
      (filter (fun p => Z.ltb (Position.filled p) (Position.needed p)) ps)
      ws.
Proof.
  unfold staffingInterval. revert s.
  induction ps as [| p ps IH]; intros s.
  - exists []. simpl. rewrite app_nil_r. split; constructor.
  - cbn [forEach filter]. unfold bind at 1.
    destruct (check_position_added p env s) as [s1 [Hrun Hadd]].
    rewrite Hrun.
    destruct (IH s1) as [ws [Hws HF]]. rewrite Hws.
    destruct (Z.ltb (Position.filled p) (Position.needed p)) eqn:E.
    + destruct Hadd as [issue [Hadd [Hty Hpos]]].
      rewrite Hadd, <- app_assoc.
      eexists. split; [reflexivity |].
      constructor; [split; assumption | exact HF].
    + rewrite Hadd. exists ws. split; [reflexivity | exact HF].
Qed.


(** [===] on two values that are a string or [undefined] *)
Lemma strict_eq_or_undefined (a b : option string) :
  Js.strict_eq (Js.or_undefined a) (Js.or_undefined b) = true <-> a = b.
Proof.
  destruct a as [x |], b as [y |]; simpl; split; intros H;
    try reflexivity; try discriminate.
  - apply String.eqb_eq in H. now subst.
  - injection H as ->. apply String.eqb_refl.
Qed.

(** C5, as the claim has it, fails, in two ways. Under a filter on a
    loaded event an issue without a position reference is not shown. And
    the warning for a position of another event is shown when that event
    has the name of the selected one. *)
Lemma shown_issues_not_by_membership :
  (Issue.position Samples.unreferenced_issue = None /\
   In Samples.unreferenced_issue [Samples.unreferenced_issue] /\
   ~ In Samples.unreferenced_issue
        (shown_issues (Some "evt-1") [Samples.run_5k]
                      [Samples.unreferenced_issue])) /\
  (Event.id (Position.event Fixtures.aid_station) = "evt-2" /\
   calls_of (staffingInterval (Some [Fixtures.aid_station])) Samples.ambient 0
     <> [] /\
   shown_issues (Some "evt-1") [Samples.run_5k; Fixtures.run_5k_again]
     (calls_of (staffingInterval (Some [Fixtures.aid_station]))
               Samples.ambient 0)
   = calls_of (staffingInterval (Some [Fixtures.aid_station]))
              Samples.ambient 0).
Proof.
  split; repeat split.
  - left. reflexivity.
  - intros H. vm_compute in H. exact H.
  - discriminate.
Qed.

Lemma filter_all {A} (f : A -> bool) (l : list A) :
  (forall x, f x = true) -> filter f l = l.
Proof.
  intros Hf. induction l as [| x rest IH]; simpl; [reflexivity |].
  now rewrite Hf, IH.
Qed.

(** C5, amended. With no filter active every issue is shown. With a filter
    active and a loaded event under the selected identifier, an issue is
    shown exactly when it has a position reference whose event name is the
    name of that event (the first loaded under the identifier); an issue
    without a position reference is then hidden. With a filter active and no
    loaded event under the selected identifier, exactly the issues without a
    position reference are shown. *)
Theorem shown_issues_by_event_name
  (selectedEventId : option string) (events : list Event.t)
  (issues : list Issue.t) (issue : Issue.t) :
  (selectedEventId = None \/ selectedEventId = Some "" ->
   shown_issues selectedEventId events issues = issues) /\
  (forall s e,
     selectedEventId = Some s -> s <> "" ->
     find (fun ev => String.eqb (Event.id ev) s) events = Some e ->
     (In issue (shown_issues selectedEventId events issues) <->
      In issue issues /\
      exists p, Issue.position issue = Some p /\
                Issue.event_name (Issue.position_event p) = Event.name e)) /\
  (forall s,
     selectedEventId = Some s -> s <> "" ->
     find (fun ev => String.eqb (Event.id ev) s) events = None ->
     (In issue (shown_issues selectedEventId events issues) <->
      In issue issues /\ Issue.position issue = None)).
Proof.
  split; [| split].
  - intros Hsel. unfold shown_issues. apply filter_all.
    intros x. unfold issue_shown.
    destruct Hsel as [-> | ->]; reflexivity.
  - intros s e -> Hs Hfind.
    unfold shown_issues. rewrite filter_In.
    unfold issue_shown, selected_event_name.
    apply String.eqb_neq in Hs.
    cbn [Js.truthy_string Js.or_null Js.strict_eq]. rewrite Hs.
    cbn [negb orb]. rewrite Hfind. cbn [option_map Js.or_undefined].
    unfold Issue.position_event_name.
    destruct (Issue.position issue) as [p |]; cbn [Js.or_undefined Js.strict_eq].
    + rewrite String.eqb_eq. split.
      * intros [Hin Hname]. split; [exact Hin |]. now exists p.
      * intros [Hin [q [Hq Hname]]]. injection Hq as <-. now split.
    + split; [intros [_ H]; discriminate H |].
      intros [_ [q [Hq _]]]. discriminate Hq.
  - intros s -> Hs Hfind.
    unfold shown_issues. rewrite filter_In.
    unfold issue_shown, selected_event_name.
    apply String.eqb_neq in Hs.
    cbn [Js.truthy_string Js.or_null Js.strict_eq]. rewrite Hs.
    cbn [negb orb]. rewrite Hfind. cbn [option_map Js.or_undefined].
    unfold Issue.position_event_name.
    destruct (Issue.position issue) as [p |]; cbn [Js.or_undefined Js.strict_eq].
    + split; intros [_ H]; discriminate H.
    + tauto.
Qed.

Lemma shown_issues_by_event_name_witness :
  (In (Samples.unreferenced_issue)
      (shown_issues (Some "evt-1") [Samples.run_5k]
                    [Samples.unreferenced_issue]) <->
   In Samples.unreferenced_issue [Samples.unreferenced_issue] /\
   exists p, Issue.position Samples.unreferenced_issue = Some p /\
             Issue.event_name (Issue.position_event p)
             = Event.name Samples.run_5k) /\
  (In Samples.unreferenced_issue
      (shown_issues (Some "evt-404") [Samples.run_5k]
                    [Samples.unreferenced_issue]) <->
   In Samples.unreferenced_issue [Samples.unreferenced_issue] /\
   Issue.position Samples.unreferenced_issue = None).
Proof.
  split.
  - apply (proj1 (proj2 (shown_issues_by_event_name
                           (Some "evt-1") [Samples.run_5k]
                           [Samples.unreferenced_issue]
                           Samples.unreferenced_issue)) "evt-1" Samples.run_5k).
    + reflexivity.
    + discriminate.
    + reflexivity.
  - apply (proj2 (proj2 (shown_issues_by_event_name
                           (Some "evt-404") [Samples.run_5k]
                           [Samples.unreferenced_issue]
                           Samples.unreferenced_issue)) "evt-404").
    + reflexivity.
    + discriminate.
    + reflexivity.
Defined.




(** With a filter active the comparison of the looked-up event's [id] with
    the selection never succeeds, and nothing is added. *)
Lemma onSignupChange_filtered
  (selectedEventId : option string) (position : option Lookup)
  (payload : Payload) (env : Ambient) (n : nat) :
  Js.truthy_string selectedEventId = true ->
  calls_of (onSignupChange selectedEventId position payload) env n = [].
Proof.
  intros Hsel.
  unfold calls_of, onSignupChange.
  destruct (payload_eventType payload); try reflexivity.
  rewrite Hsel.
  destruct selectedEventId as [sel |]; [reflexivity | discriminate].
Qed.

End Feed.

(** ** Signups: the eligible list, check-in and import *)

Section Signups.

Import DataService.

Variable ord : ColumnOrder.

Lemma eligible_iff (positionId : string) (r : SignupRow) :
  eligible positionId r = true <->
  position_id r = positionId /\ arrived r = false.
Proof.
  unfold eligible.
  rewrite andb_true_iff, String.eqb_eq.
  destruct (arrived r); simpl; intuition congruence.
Qed.

(** *** One ascending arrangement always exists *)

Lemma insert_ascending_perm (r : SignupRow) (rows : list SignupRow) :
  Permutation (r :: rows) (insert_ascending ord r rows).
Proof.
  induction rows as [| x rest IH]; simpl.
  - apply Permutation_refl.
  - destruct (col_leb ord (start_time r) (start_time x)).
    + apply Permutation_refl.
    + eapply Permutation_trans; [apply perm_swap |].
      now apply perm_skip.
Qed.

Lemma sort_ascending_perm (rows : list SignupRow) :
  Permutation rows (sort_ascending ord rows).
Proof.
  induction rows as [| r rest IH]; simpl.
  - apply Permutation_refl.
  - eapply Permutation_trans; [| apply insert_ascending_perm].
    now apply perm_skip.
Qed.

Lemma insert_ascending_sorted (r : SignupRow) (rows : list SignupRow) :
  ascending ord rows -> ascending ord (insert_ascending ord r rows).
Proof.
  unfold ascending.
  induction rows as [| x rest IH]; intros Hs; simpl.
  - constructor; constructor.
  - inversion Hs as [| ? ? Hrest Hall]; subst.
    destruct (col_leb ord (start_time r) (start_time x)) eqn:E.
    + constructor; [exact Hs |].
      constructor; [exact E |].
      eapply Forall_impl; [| exact Hall].
      intros y Hy. simpl in *. eapply col_trans; eassumption.
    + constructor; [now apply IH |].
      assert (Hxr : col_leb ord (start_time x) (start_time r) = true).
      { destruct (col_total ord (start_time r) (start_time x)); congruence. }
      eapply Permutation_Forall; [apply insert_ascending_perm |].
      constructor; assumption.
Qed.

Lemma sort_ascending_sorted (rows : list SignupRow) :
  ascending ord (sort_ascending ord rows).
Proof.
  induction rows as [| r rest IH]; simpl.
  - constructor.
  - now apply insert_ascending_sorted.
Qed.

Lemma volunteers_query_answers (t : Table) (positionId : string) :
  Js.truthy_string (Some positionId) = true ->
  volunteers_query ord t (Some positionId)
    (Rows (sort_ascending ord (filter (eligible positionId) t))).
Proof.
  intros Hid. apply vq_rows; [exact Hid |].
  split; [apply sort_ascending_perm | apply sort_ascending_sorted].
Qed.

(** What any answer of the query holds. *)
Lemma volunteers_query_rows
  (t : Table) (positionId : option string) (data : list SignupRow) :
  volunteers_query ord t positionId (Rows data) ->
  exists pid,
    positionId = Some pid /\
    Permutation (filter (eligible pid) t) data /\
    ascending ord data.
Proof.
  intros H. inversion H as [| pid d Hid [Hperm Hasc] |]; subst.
  exists pid. repeat split; assumption.
Qed.

(** *** Check-in *)

Lemma update_arrived_ids (volunteerId : string) (t : Table) :
  map id (update_arrived volunteerId t) = map id t.
Proof.
  unfold update_arrived. rewrite map_map.
  apply map_ext. intros r.
  now destruct (String.eqb (id r) volunteerId).
Qed.

Lemma update_arrived_In (volunteerId : string) (t : Table) (r : SignupRow) :
  In r (update_arrived volunteerId t) ->
  exists r0, In r0 t /\ id r = id r0 /\
             ((id r0 = volunteerId /\ arrived r = true) \/
              (id r0 <> volunteerId /\ r = r0)).
Proof.
  unfold update_arrived. rewrite in_map_iff.
  intros [r0 [Hr Hin]]. exists r0.
  destruct (String.eqb (id r0) volunteerId) eqn:E; subst r.
  - apply String.eqb_eq in E. simpl. auto.
  - apply String.eqb_neq in E. auto.
Qed.

Lemma new_rows_ids (assigned : list string) (vs : list SignupInsert) (r : SignupRow) :
  In r (new_rows assigned vs) -> In (id r) assigned.
Proof.
  unfold new_rows. rewrite in_map_iff.
  intros [[i v] [Hr Hin]]. subst r. simpl.
  eapply in_combine_l. exact Hin.
Qed.

Lemma update_arrived_checked_in (volunteerId : string) (t : Table) :
  In volunteerId (map id t) ->
  checked_in volunteerId (update_arrived volunteerId t).
Proof.
  intros Hin. split.
  - now rewrite update_arrived_ids.
  - intros r Hr Hid.
    apply update_arrived_In in Hr.
    destruct Hr as [r0 [_ [Hid0 [[_ Harr] | [Hne _]]]]]; [exact Harr |].
    congruence.
Qed.

(** Neither write of the sources brings a checked-in signup back. *)
Lemma write_keeps_checked_in (volunteerId : string) (t t1 : Table) :
  checked_in volunteerId t -> write t t1 -> checked_in volunteerId t1.
Proof.
  intros [Hin Harr] Hw.
  destruct Hw as [assigned vs Hlen Hnodup Hfresh | other].
  - split.
    + unfold insert_rows. rewrite map_app, in_app_iff. now left.
    + intros r Hr Hid.
      unfold insert_rows in Hr. apply in_app_iff in Hr.
      destruct Hr as [Hr | Hr]; [now apply Harr |].
      apply new_rows_ids in Hr. rewrite Hid in Hr.
      now elim (Hfresh volunteerId Hr).
  - split.
    + now rewrite update_arrived_ids.
    + intros r Hr Hid.
      apply update_arrived_In in Hr.
      destruct Hr as [r0 [Hr0 [Hid0 [[_ Ha] | [_ ->]]]]]; [exact Ha |].
      now apply Harr.
Qed.

Lemma writes_keep_checked_in (volunteerId : string) (t t1 : Table) :
  checked_in volunteerId t -> writes t t1 -> checked_in volunteerId t1.
Proof.
  intros Hc Hw. induction Hw as [| t t1 t2 Hstep _ IH].
  - exact Hc.
  - apply IH. eapply write_keeps_checked_in; eassumption.
Qed.

(** C2. Once the update for a listed signup has succeeded, no later answer
    of the eligible-volunteers query, for any position and after any further
    imports and check-ins, holds a row of that signup. *)
Theorem checked_in_never_listed
  (t t1 : Table) (page : CheckInPage) (volunteerId : string)
  (positionId : option string) (data : list SignupRow) :
  In volunteerId (map id t) ->
  writes (fst (checkInMutation None volunteerId t page)) t1 ->
  volunteers_query ord t1 positionId (Rows data) ->
  ~ In volunteerId (map id data).
Proof.
  intros Hin Hw Hq Hlisted.
  simpl in Hw.
  pose proof (writes_keep_checked_in
                (update_arrived_checked_in volunteerId t Hin) Hw) as [_ Harr].
  apply volunteers_query_rows in Hq.
  destruct Hq as [pid [_ [Hperm _]]].
  apply in_map_iff in Hlisted.
  destruct Hlisted as [r [Hid Hr]].
  apply (Permutation_in _ (Permutation_sym Hperm)), filter_In in Hr.
  destruct Hr as [Hr Hel].
  apply eligible_iff in Hel.
  rewrite (Harr r Hr Hid) in Hel.
  destruct Hel; discriminate.
Qed.

(** *** Import *)

Lemma new_rows_stored
  (data : list SaveToSupabase.StructuredSignUpData) (assigned : list string) :
  List.length assigned = List.length data ->
  Forall2
    (fun item row =>
       stored_as (SaveToSupabase.position_ID item)
                 (SaveToSupabase.volunteer_name item)
                 (SaveToSupabase.volunteer_email item)
                 (SaveToSupabase.start_datetime item)
                 (SaveToSupabase.end_datetime item) row)
    data
    (new_rows assigned (map SaveToSupabase.toVolunteerSignup data)).
Proof.
  revert assigned.
  induction data as [| item data IH]; intros [| i assigned] Hlen;
    try discriminate; simpl.
  - constructor.
  - constructor.
    + repeat split.
    + apply IH. now injection Hlen.
Qed.

(** C10. Saving a non-empty roster that the store accepts appends one row
    per roster row, in order, each with the fields of its roster row and
    [arrived = false]; each of them is then eligible for check-in at its
    position. *)
Theorem handleSaveToSupabase_rows_not_arrived
  (data : list SaveToSupabase.StructuredSignUpData)
  (assigned : list string) (t : Table) :
  data <> [] ->
  List.length assigned = List.length data ->
  exists rows,
    fst (SaveToSupabase.handleSaveToSupabase
           data (SaveToSupabase.Inserted assigned) t) = t ++ rows /\
    Forall2
      (fun item row =>
         stored_as (SaveToSupabase.position_ID item)
                   (SaveToSupabase.volunteer_name item)
                   (SaveToSupabase.volunteer_email item)
                   (SaveToSupabase.start_datetime item)
                   (SaveToSupabase.end_datetime item) row)
      data rows /\
    Forall (fun row => arrived row = false /\
                       eligible (position_id row) row = true) rows.
Proof.
  intros Hne Hlen.
  exists (new_rows assigned (map SaveToSupabase.toVolunteerSignup data)).
  pose proof (@new_rows_stored data assigned Hlen) as Hstored.
  repeat split.
  - unfold SaveToSupabase.handleSaveToSupabase.
    destruct data as [| item data]; [now elim Hne |].
    reflexivity.
  - exact Hstored.
  - clear - Hstored.
    induction Hstored as [| item row data rows Hrow _ IH]; constructor.
    + destruct Hrow as (_ & _ & _ & _ & _ & Harr).
      split; [exact Harr |].
      apply eligible_iff. now split.
    + exact IH.
Qed.

End Signups.

(** *** The statements above at sample tables *)

Section SignupExamples.

Import DataService.

(** The table after the first sample signup checked in and one roster row
    was imported under a new identifier. *)
Lemma checked_in_never_listed_witness :
  ~ In "s-1"
      (map id
         (sort_ascending TextColumn.order
            (filter (eligible "p-1")
               (insert_rows ["s-3"]
                  [SaveToSupabase.toVolunteerSignup Samples.imported_row]
                  (update_arrived "s-1" Samples.two_signups))))).
Proof.
  apply (@checked_in_never_listed TextColumn.order
           Samples.two_signups
           (insert_rows ["s-3"]
              [SaveToSupabase.toVolunteerSignup Samples.imported_row]
              (update_arrived "s-1" Samples.two_signups))
           Samples.idle_page "s-1" (Some "p-1")).
  - simpl. left. reflexivity.
  - simpl. eapply writes_more; [| apply writes_none].
    apply write_insert.
    + reflexivity.
    + constructor; [intros [] | constructor].
    + intros i [<- | []] H. simpl in H.
      destruct H as [H | [H | []]]; discriminate H.
  - apply volunteers_query_answers. reflexivity.
Defined.

Lemma handleSaveToSupabase_rows_not_arrived_witness :
  exists rows,
    fst (SaveToSupabase.handleSaveToSupabase
           [Samples.imported_row] (SaveToSupabase.Inserted ["s-3"])
           Samples.two_signups) = Samples.two_signups ++ rows /\
    Forall2
      (fun item row =>
         stored_as (SaveToSupabase.position_ID item)
                   (SaveToSupabase.volunteer_name item)
                   (SaveToSupabase.volunteer_email item)
                   (SaveToSupabase.start_datetime item)
                   (SaveToSupabase.end_datetime item) row)
      [Samples.imported_row] rows /\
    Forall (fun row => arrived row = false /\
                       eligible (position_id row) row = true) rows.
Proof.
  apply (@handleSaveToSupabase_rows_not_arrived
           [Samples.imported_row] ["s-3"] Samples.two_signups).
  - discriminate.
  - reflexivity.
Defined.

End SignupExamples.

(** ** The roster upload *)

Section Roster.

Import Text Upload.

Lemma map_indexed_length {A B} (f : A -> nat -> B) (i : nat) (xs : list A) :
  List.length (map_indexed f i xs) = List.length xs.
Proof.
  revert i. induction xs as [| x rest IH]; intros i; simpl; [| rewrite IH];
    reflexivity.
Qed.

Lemma map_indexed_map {A B C} (f : A -> nat -> B) (g : B -> C)
  (h : nat -> C) (i : nat) (xs : list A) :
  (forall x k, g (f x k) = h k) ->
  map g (map_indexed f i xs) = map h (seq i (List.length xs)).
Proof.
  intros Hgf. revert i.
  induction xs as [| x rest IH]; intros i; simpl.
  - reflexivity.
  - now rewrite Hgf, IH.
Qed.

Lemma map_indexed_Forall {A B} (f : A -> nat -> B) (P : B -> Prop)
  (i : nat) (xs : list A) :
  (forall x k, P (f x k)) -> Forall P (map_indexed f i xs).
Proof.
  intros HP. revert i.
  induction xs as [| x rest IH]; intros i; simpl; constructor; auto.
Qed.

(** X1. A completed parse replaces the data by one structured row per
    parsed row, numbered 1, 2, ... in order. *)
Theorem handleFileUpload_numbers_rows
  (rawData : list RawSignUpData)
  (data : list SaveToSupabase.StructuredSignUpData) :
  List.length (handleFileUpload (Complete rawData) data) = List.length rawData /\
  map SaveToSupabase.id (handleFileUpload (Complete rawData) data) =
    map Z.of_nat (seq 1 (List.length rawData)).
Proof.
  unfold handleFileUpload. split.
  - apply map_indexed_length.
  - rewrite (map_indexed_map structure SaveToSupabase.id
               (fun k => Z.of_nat (S k)) 0 rawData).
    + now rewrite <- seq_shift, map_map.
    + intros x k. simpl. lia.
Qed.

Lemma or_else_nonempty (x : option string) (d : string) :
  d <> EmptyString -> or_else x d <> EmptyString.
Proof.
  intros Hd. unfold or_else.
  destruct x as [v |]; [| exact Hd].
  destruct (String.eqb v EmptyString) eqn:E; [exact Hd |].
  now apply String.eqb_neq in E.
Qed.

(** X2. No structured row has an empty field: where the file gives nothing
    the row carries the placeholder, and [arrived] is the empty text. *)
Theorem handleFileUpload_fills_blanks
  (rawData : list RawSignUpData)
  (data : list SaveToSupabase.StructuredSignUpData) :
  Forall
    (fun row =>
       SaveToSupabase.position_ID row <> "" /\
       SaveToSupabase.volunteer_name row <> "" /\
       SaveToSupabase.volunteer_email row <> "" /\
       SaveToSupabase.start_date row <> "" /\
       SaveToSupabase.start_datetime row <> "" /\
       SaveToSupabase.end_datetime row <> "" /\
       SaveToSupabase.arrived row = "")
    (handleFileUpload (Complete rawData) data).
Proof.
  unfold handleFileUpload.
  apply map_indexed_Forall. intros item k.
  unfold structure. cbn [SaveToSupabase.position_ID SaveToSupabase.volunteer_name
    SaveToSupabase.volunteer_email SaveToSupabase.start_date
    SaveToSupabase.start_datetime SaveToSupabase.end_datetime
    SaveToSupabase.arrived].
  repeat split; try (apply or_else_nonempty; discriminate).
Qed.

(** *** The pieces of a date/time text *)

Lemma split_space_one (a : string) :
  has_space a = false -> split_space a = [a].
Proof.
  induction a as [| c rest IH]; simpl; [reflexivity |].
  intros H. apply orb_false_iff in H. destruct H as [Hc Hrest].
  rewrite Hc, (IH Hrest). reflexivity.
Qed.

Lemma split_space_app (a b : string) :
  has_space a = false ->
  split_space (a ++ " " ++ b) = a :: split_space b.
Proof.
  induction a as [| c rest IH]; simpl.
  - reflexivity.
  - intros H. apply orb_false_iff in H. destruct H as [Hc Hrest].
    rewrite Hc. simpl in IH. rewrite (IH Hrest). reflexivity.
Qed.

Lemma or_else_empty (v : string) : or_else (Some v) "" = v.
Proof.
  unfold or_else. destruct (String.eqb v EmptyString) eqn:E; [| reflexivity].
  apply String.eqb_eq in E. now subst.
Qed.

Lemma or_else_given (v d : string) : v <> "" -> or_else (Some v) d = v.
Proof.
  intros Hv. unfold or_else.
  now rewrite (proj2 (String.eqb_neq v EmptyString) Hv).
Qed.

Lemma map_indexed_Forall2 {A B} (f : A -> nat -> B) (P : A -> B -> Prop)
  (i : nat) (xs : list A) :
  (forall x k, P x (f x k)) -> Forall2 P xs (map_indexed f i xs).
Proof.
  intros HP. revert i.
  induction xs as [| x rest IH]; intros i; simpl; constructor; auto.
Qed.

Lemma Forall2_head {A B} (P : A -> B -> Prop) (a : A) (b : B)
  (l : list A) (l' : list B) :
  Forall2 P (a :: l) (b :: l') -> P a b.
Proof. intros H. now inversion H. Qed.

(** X3. The date and the times of a structured row are pieces of the line's
    date/time texts, cut at single spaces. Of a start text [d t] or
    [d t rest] the row has [d] as start date and [t] as start time: what
    follows a second space (an AM/PM mark, say) is dropped. Of a start text
    without a space the row has the text as start date and ["No Time"] as
    start time; of no start text, ["No Date"] and ["No Time"]. The end time
    is the second piece of the end text in the same way, and the end date is
    not kept. *)
Theorem handleFileUpload_date_time_pieces
  (rawData : list RawSignUpData)
  (data : list SaveToSupabase.StructuredSignUpData) :
  Forall2
    (fun item row =>
       (forall d t rest,
          has_space d = false -> has_space t = false ->
          d <> "" -> t <> "" ->
          Start_Date_Time item = Some (d ++ " " ++ t)%string \/
          Start_Date_Time item = Some (d ++ " " ++ t ++ " " ++ rest)%string ->
          SaveToSupabase.start_date row = d /\
          SaveToSupabase.start_datetime row = t) /\
       (forall d,
          has_space d = false -> d <> "" ->
          Start_Date_Time item = Some d ->
          SaveToSupabase.start_date row = d /\
          SaveToSupabase.start_datetime row = "No Time") /\
       (Start_Date_Time item = None \/ Start_Date_Time item = Some "" ->
        SaveToSupabase.start_date row = "No Date" /\
        SaveToSupabase.start_datetime row = "No Time") /\
       (forall d t rest,
          has_space d = false -> has_space t = false -> t <> "" ->
          End_Date_Time item = Some (d ++ " " ++ t)%string \/
          End_Date_Time item = Some (d ++ " " ++ t ++ " " ++ rest)%string ->
          SaveToSupabase.end_datetime row = t) /\
       (forall d,
          has_space d = false ->
          End_Date_Time item = None \/ End_Date_Time item = Some d ->
          SaveToSupabase.end_datetime row = "No Time"))
    rawData (handleFileUpload (Complete rawData) data).
Proof.
  unfold handleFileUpload.
  apply map_indexed_Forall2. intros item k.
  unfold structure. cbn [SaveToSupabase.start_date
    SaveToSupabase.start_datetime SaveToSupabase.end_datetime].
  repeat apply conj.
  - intros d t rest Hd Ht Hdne Htne [E | E]; rewrite E, or_else_empty.
    + rewrite (@split_space_app d _ Hd), (@split_space_one t Ht).
      cbn [first_piece second_piece].
      now rewrite !or_else_given.
    + rewrite (@split_space_app d _ Hd), (@split_space_app t _ Ht).
      cbn [first_piece second_piece].
      now rewrite !or_else_given.
  - intros d Hd Hdne E. rewrite E, or_else_empty, (@split_space_one d Hd).
    cbn [first_piece second_piece].
    now rewrite or_else_given.
  - intros [E | E]; rewrite E; split; reflexivity.
  - intros d t rest Hd Ht Htne [E | E]; rewrite E, or_else_empty.
    + rewrite (@split_space_app d _ Hd), (@split_space_one t Ht).
      cbn [second_piece]. now rewrite or_else_given.
    + rewrite (@split_space_app d _ Hd), (@split_space_app t _ Ht).
      cbn [second_piece]. now rewrite or_else_given.
  - intros d Hd [E | E]; rewrite E; [reflexivity |].
    rewrite or_else_empty, (@split_space_one d Hd). reflexivity.
Qed.

(** *** Trimmed names *)

Lemma trimStart_pad (pre s : string) :
  all_white pre = true -> trimStart (pre ++ s) = trimStart s.
Proof.
  induction pre as [| c rest IH]; simpl; [reflexivity |].
  intros H. apply andb_true_iff in H. destruct H as [Hc Hrest].
  rewrite Hc. now apply IH.
Qed.

Lemma trimStart_white (w : string) :
  all_white w = true -> trimStart w = EmptyString.
Proof.
  induction w as [| c rest IH]; simpl; [reflexivity |].
  intros H. apply andb_true_iff in H. destruct H as [Hc Hrest].
  rewrite Hc. now apply IH.
Qed.

Lemma trimStart_tidy (s : string) :
  starts_white s = false -> trimStart s = s.
Proof. destruct s as [| c rest]; simpl; [reflexivity | now intros ->]. Qed.

Lemma trimEnd_white (w : string) :
  all_white w = true -> trimEnd w = EmptyString.
Proof.
  induction w as [| c rest IH]; simpl; [reflexivity |].
  intros H. apply andb_true_iff in H. destruct H as [Hc Hrest].
  now rewrite (IH Hrest), Hc.
Qed.

Lemma trimEnd_pad (s post : string) :
  all_white post = true -> trimEnd (s ++ post) = trimEnd s.
Proof.
  intros Hpost. induction s as [| c rest IH]; simpl.
  - now apply trimEnd_white.
  - now rewrite IH.
Qed.

Lemma trimEnd_tidy (s : string) :
  ends_white s = false -> trimEnd s = s.
Proof.
  induction s as [| c rest IH]; [reflexivity |].
  destruct rest as [| c' rest'].
  - simpl. now intros ->.
  - intros H. change (ends_white (String c' rest') = false) in H.
    change (trimEnd (String c (String c' rest')))
      with (match trimEnd (String c' rest') with
            | EmptyString =>
                if is_white c then EmptyString else String c EmptyString
            | kept => String c kept
            end).
    now rewrite (IH H).
Qed.

(** [trim] gives what stands between the white space around it. *)
Lemma trim_between (pre core post : string) :
  all_white pre = true -> all_white post = true ->
  starts_white core = false -> ends_white core = false ->
  trim (pre ++ core ++ post) = core.
Proof.
  intros Hpre Hpost Hs He. unfold trim.
  rewrite trimStart_pad by exact Hpre.
  destruct core as [| c rest].
  - simpl. now rewrite trimStart_white by exact Hpost.
  - rewrite trimStart_tidy by exact Hs.
    rewrite trimEnd_pad by exact Hpost. now apply trimEnd_tidy.
Qed.

Lemma reads_as_trim (column : option string) (core : string) :
  reads_as column core ->
  or_else (option_map trim column) "" = core.
Proof.
  intros [[-> [-> | [w [-> Hw]]]] | [Hne [Hs [He [pre [post [Hpre [Hpost ->]]]]]]]].
  - reflexivity.
  - simpl. unfold trim.
    now rewrite trimStart_white by exact Hw.
  - simpl. rewrite trim_between by assumption.
    now apply or_else_given.
Qed.

(** X4. The volunteer name of a structured row is made of what the first
    and last name columns read as, white space around them removed: both
    joined by one space; the one that is there when the other is missing or
    blank; ["No Name"] when both are missing or blank. *)
Theorem handleFileUpload_joins_trimmed_names
  (rawData : list RawSignUpData)
  (data : list SaveToSupabase.StructuredSignUpData) :
  Forall2
    (fun item row =>
       forall f l,
         reads_as (First_Name item) f -> reads_as (Last_Name item) l ->
         (f = "" -> l = "" -> SaveToSupabase.volunteer_name row = "No Name") /\
         (f <> "" -> l = "" -> SaveToSupabase.volunteer_name row = f) /\
         (f = "" -> l <> "" -> SaveToSupabase.volunteer_name row = l) /\
         (f <> "" -> l <> "" ->
          SaveToSupabase.volunteer_name row = (f ++ " " ++ l)%string))
    rawData (handleFileUpload (Complete rawData) data).
Proof.
  unfold handleFileUpload.
  apply map_indexed_Forall2. intros item k f l Hf Hl.
  unfold structure. cbn [SaveToSupabase.volunteer_name].
  rewrite (@reads_as_trim _ _ Hf), (@reads_as_trim _ _ Hl).
  unfold filter_Boolean, join_space. cbn [filter].
  repeat apply conj.
  - intros -> ->. reflexivity.
  - intros Hne ->. rewrite (proj2 (String.eqb_neq f EmptyString) Hne).
    cbn [negb String.eqb String.concat]. now apply or_else_given.
  - intros -> Hne. rewrite (proj2 (String.eqb_neq l EmptyString) Hne).
    cbn [negb String.eqb String.concat]. now apply or_else_given.
  - intros Hf0 Hl0.
    rewrite (proj2 (String.eqb_neq f EmptyString) Hf0),
            (proj2 (String.eqb_neq l EmptyString) Hl0).
    cbn [negb String.concat]. apply or_else_given.
    destruct f; [congruence | discriminate].
Qed.

(** *** Saving what was uploaded *)

Lemma upload_rows_stored
  (rawData : list RawSignUpData) (assigned : list string) (i : nat) :
  List.length assigned = List.length rawData ->
  Forall2
    (fun item row =>
       DataService.position_id row = or_else (Item item) "No Position" /\
       DataService.email row = or_else (Email item) "No Email" /\
       DataService.arrived row = false)
    rawData
    (DataService.new_rows assigned
       (map SaveToSupabase.toVolunteerSignup (map_indexed structure i rawData))).
Proof.
  revert assigned i.
  induction rawData as [| item rest IH]; intros [| a assigned] i Hlen;
    try discriminate; simpl.
  - constructor.
  - constructor.
    + repeat split.
    + apply IH. now injection Hlen.
Qed.

(** X5. Saving an uploaded, non-empty roster that the store accepts appends
    one row per line of the file, in order, filed under the line's [Item]
    (or ["No Position"] when it has none) and not arrived. *)
Theorem upload_then_save
  (rawData : list RawSignUpData) (assigned : list string)
  (t : DataService.Table) :
  rawData <> [] ->
  List.length assigned = List.length rawData ->
  exists rows,
    fst (SaveToSupabase.handleSaveToSupabase
           (handleFileUpload (Complete rawData) [])
           (SaveToSupabase.Inserted assigned) t) = t ++ rows /\
    Forall2
      (fun item row =>
         DataService.position_id row = or_else (Item item) "No Position" /\
         DataService.email row = or_else (Email item) "No Email" /\
         DataService.arrived row = false)
      rawData rows.
Proof.
  intros Hne Hlen.
  eexists. split; [| exact (upload_rows_stored rawData assigned 0 Hlen)].
  unfold SaveToSupabase.handleSaveToSupabase, handleFileUpload.
  rewrite map_indexed_length.
  destruct rawData as [| item rest]; [now elim Hne |].
  reflexivity.
Qed.

(** X6. The save reports success exactly when there was data and the store
    answered without an error. With no data the store is not asked: the
    table is as it was whatever the store would answer, and the result says
    that there is no data. An error of the store is reported with its
    message. *)
Theorem handleSaveToSupabase_success_iff
  (data : list SaveToSupabase.StructuredSignUpData)
  (answer : SaveToSupabase.InsertAnswer) (t : DataService.Table) :
  (SaveToSupabase.success
     (snd (SaveToSupabase.handleSaveToSupabase data answer t)) = true <->
   data <> [] /\ exists assigned, answer = SaveToSupabase.Inserted assigned) /\
  (data = [] ->
   SaveToSupabase.handleSaveToSupabase data answer t
   = (t, {| SaveToSupabase.success := false;
            SaveToSupabase.message :=
              "No data to save. Please upload a CSV file first." |})) /\
  (forall msg,
     data <> [] -> answer = SaveToSupabase.InsertError msg ->
     snd (SaveToSupabase.handleSaveToSupabase data answer t)
     = {| SaveToSupabase.success := false;
          SaveToSupabase.message := ("Error saving to database: " ++ msg)%string |}).
Proof.
  unfold SaveToSupabase.handleSaveToSupabase.
  destruct data as [| item rest]; simpl.
  - split; [| split].
    + split; [discriminate | intros [H _]; now elim H].
    + reflexivity.
    + intros msg H. now elim H.
  - split; [| split].
    + destruct answer as [assigned | message]; simpl.
      * split; [intros _ | reflexivity].
        split; [discriminate | now exists assigned].
      * split; [discriminate | intros [_ [a Ha]]; discriminate Ha].
    + discriminate.
    + intros msg _ ->. reflexivity.
Qed.

(** X7. The retry delay starts at one second, never shrinks from one
    attempt to the next, never exceeds thirty seconds, and is thirty seconds
    from the sixth attempt on. *)
Theorem retryDelay_bounds (attemptIndex : nat) :
  retryDelay 0 = 1000%Z /\
  (1000 <= retryDelay attemptIndex <= 30000)%Z /\
  (retryDelay attemptIndex <= retryDelay (S attemptIndex))%Z /\
  retryDelay (5 + attemptIndex) = 30000%Z.
Proof.
  unfold retryDelay.
  assert (H1 : (1 <= 2 ^ Z.of_nat attemptIndex)%Z).
  { change 1%Z with (2 ^ 0)%Z. apply Z.pow_le_mono_r; lia. }
  assert (HS : (2 ^ Z.of_nat (S attemptIndex) = 2 * 2 ^ Z.of_nat attemptIndex)%Z).
  { rewrite Nat2Z.inj_succ. apply Z.pow_succ_r. lia. }
  assert (H5 : (2 ^ Z.of_nat (5 + attemptIndex) = 32 * 2 ^ Z.of_nat attemptIndex)%Z).
  { rewrite Nat2Z.inj_add, Z.pow_add_r by lia. reflexivity. }
  repeat split.
  - lia.
  - lia.
  - rewrite HS. lia.
  - rewrite H5. lia.
Qed.

End Roster.

Lemma upload_then_save_witness :
  exists rows,
    fst (SaveToSupabase.handleSaveToSupabase
           (Upload.handleFileUpload (Upload.Complete [Fixtures.roster_line]) [])
           (SaveToSupabase.Inserted ["s-3"]) Samples.two_signups)
    = Samples.two_signups ++ rows /\
    Forall2
      (fun item row =>
         DataService.position_id row =
           Text.or_else (Upload.Item item) "No Position" /\
         DataService.email row = Text.or_else (Upload.Email item) "No Email" /\
         DataService.arrived row = false)
      [Fixtures.roster_line] rows.
Proof.
  apply (@upload_then_save [Fixtures.roster_line] ["s-3"] Samples.two_signups).
  - discriminate.
  - reflexivity.
Defined.

Lemma handleSaveToSupabase_success_iff_witness :
  SaveToSupabase.handleSaveToSupabase
    [] (SaveToSupabase.Inserted ["s-9"]) Samples.two_signups
  = (Samples.two_signups,
     {| SaveToSupabase.success := false;
        SaveToSupabase.message :=
          "No data to save. Please upload a CSV file first." |}).
Proof.
  apply (proj1 (proj2 (@handleSaveToSupabase_success_iff
                         [] (SaveToSupabase.Inserted ["s-9"])
                         Samples.two_signups))).
  reflexivity.
Defined.

Lemma handleFileUpload_date_time_pieces_witness :
  SaveToSupabase.start_date (Upload.structure Fixtures.roster_line 0)
  = "06/01/2024" /\
  SaveToSupabase.start_datetime (Upload.structure Fixtures.roster_line 0)
  = "9:00".
Proof.
  apply (proj1 (Forall2_head
                  (l := []) (l' := [])
                  (handleFileUpload_date_time_pieces [Fixtures.roster_line] []))
               "06/01/2024" "9:00" "AM").
  - reflexivity.
  - reflexivity.
  - discriminate.
  - discriminate.
  - right. reflexivity.
Defined.

Lemma handleFileUpload_joins_trimmed_names_witness :
  SaveToSupabase.volunteer_name (Upload.structure Fixtures.roster_line 0)
  = "Ada Lovelace".
Proof.
  apply (Forall2_head
           (l := []) (l' := [])
           (handleFileUpload_joins_trimmed_names [Fixtures.roster_line] [])
           "Ada" "Lovelace").
  - right. repeat split; try discriminate.
    exists " ", " ". repeat split.
  - right. repeat split; try discriminate.
    exists "", "". repeat split.
  - discriminate.
  - discriminate.
Defined.

(** ** The dashboard: tiles, panel, map and selection *)

Section DashboardFacts.

Import Overview Dashboard.

Lemma filter_split_length {A} (f g : A -> bool) (l : list A) :
  (forall x, g x = negb (f x)) ->
  (List.length (filter f l) + List.length (filter g l))%nat = List.length l.
Proof.
  intros Hfg. induction l as [| x rest IH]; simpl; [reflexivity |].
  rewrite Hfg. destruct (f x); simpl; lia.
Qed.

Lemma filter_filter_length {A} (f g : A -> bool) (l : list A) :
  (List.length (filter f (filter g l)) <= List.length (filter f l))%nat.
Proof.
  induction l as [| x rest IH]; simpl; [lia |].
  destruct (g x); simpl; destruct (f x); simpl; lia.
Qed.

Lemma In_firstn {A} (n : nat) (l : list A) (x : A) :
  In x (firstn n l) -> In x l.
Proof.
  intros H. rewrite <- (firstn_skipn n l). apply in_or_app. now left.
Qed.

(** X8. The tiles add up: the positions counted as filled and those
    counted as needing volunteers are together all the positions counted. *)
Theorem tiles_add_up
  (selectedEventId : option string) (positions : list Position.t) :
  (filled_positions selectedEventId positions
   + needs_volunteers selectedEventId positions)%nat
  = total_positions selectedEventId positions.
Proof.
  unfold filled_positions, needs_volunteers, total_positions.
  apply filter_split_length.
  intros p. rewrite Z.geb_leb. apply Z.ltb_antisym.
Qed.

Lemma staffingInterval_calls_length
  (ps : list Position.t) (env : Ambient) (n : nat) :
  List.length (calls_of (staffingInterval (Some ps)) env n) =
  List.length (filter (fun p => Z.ltb (Position.filled p) (Position.needed p)) ps).
Proof.
  unfold calls_of.
  destruct (staffingInterval_added ps env {| drawn := n; added := [] |})
    as [ws [Hws HF]].
  rewrite Hws. simpl. symmetry. eapply Forall2_length. exact HF.
Qed.

(** X9. One pass of the staffing check over the loaded positions adds at
    least as many warnings as the "Needs Volunteers" tile counts, and
    exactly as many when no event is selected. *)
Theorem staffing_warnings_match_tile
  (selectedEventId : option string) (positions : list Position.t)
  (env : Ambient) (n : nat) :
  (needs_volunteers selectedEventId positions
   <= List.length (calls_of (staffingInterval (Some positions)) env n))%nat /\
  (Js.truthy_string selectedEventId = false ->
   needs_volunteers selectedEventId positions
   = List.length (calls_of (staffingInterval (Some positions)) env n)).
Proof.
  rewrite staffingInterval_calls_length.
  unfold needs_volunteers, filteredPositions.
  destruct (Js.truthy_string selectedEventId); split.
  - apply filter_filter_length.
  - discriminate.
  - lia.
  - reflexivity.
Qed.

Lemma staffing_warnings_match_tile_witness :
  needs_volunteers None [Fixtures.water_station]
  = List.length
      (calls_of (staffingInterval (Some [Fixtures.water_station]))
                Samples.ambient 0).
Proof.
  apply (proj2 (staffing_warnings_match_tile
                  None [Fixtures.water_station] Samples.ambient 0)).
  reflexivity.
Defined.

(** X10. The panel is blank, with neither a card nor the note "No issues to
    report", exactly when the feed holds issues and the filter hides them
    all: the note looks at the feed, not at what is shown. *)
Theorem feed_panel_blank
  (selectedEventId : option string) (events : list Event.t)
  (issues : list Issue.t) :
  feed_panel selectedEventId events issues = [] <->
  issues <> [] /\ shown_issues selectedEventId events issues = [].
Proof.
  unfold feed_panel.
  destruct issues as [| issue rest].
  - simpl. split; [discriminate | intros [H _]; now elim H].
  - cbn [List.length Nat.eqb]. rewrite app_nil_r.
    split.
    + intros H. split; [discriminate |].
      destruct (shown_issues selectedEventId events (issue :: rest));
        [reflexivity | discriminate].
    + intros [_ ->]. reflexivity.
Qed.

(** X11. After a pass of the staffing check that finds a hundred or more
    positions short of volunteers, the feed holds warnings of that pass
    only: whatever it held before is gone. *)
Theorem staffing_pass_floods_feed
  (positions : list Position.t) (env : Ambient) (n : nat)
  (issues : list Issue.t) :
  List.length issues <= 100 ->
  100 <= List.length
           (filter (fun p => Z.ltb (Position.filled p) (Position.needed p))
                   positions) ->
  run (staffingInterval (Some positions)) env n issues
  = firstn 100 (rev (calls_of (staffingInterval (Some positions)) env n)) /\
  Forall (fun issue => Issue.type issue = Issue.warning)
         (run (staffingInterval (Some positions)) env n issues).
Proof.
  intros Hlen Hmany.
  rewrite <- staffingInterval_calls_length with (env := env) (n := n) in Hmany.
  assert (E : run (staffingInterval (Some positions)) env n issues
              = firstn 100 (rev (calls_of (staffingInterval (Some positions)) env n))).
  { rewrite run_feed by exact Hlen.
    rewrite firstn_app.
    replace (100 - List.length (rev (calls_of (staffingInterval (Some positions)) env n)))
      with 0 by (rewrite length_rev; lia).
    simpl. apply app_nil_r. }
  split; [exact E |].
  rewrite E.
  assert (Hall : Forall (fun issue => Issue.type issue = Issue.warning)
                        (calls_of (staffingInterval (Some positions)) env n)).
  { unfold calls_of.
    destruct (staffingInterval_added positions env {| drawn := n; added := [] |})
      as [ws [Hws HF]].
    rewrite Hws. simpl. clear - HF.
    induction HF as [| p w ps ws [Hw _] _ IH]; constructor; assumption. }
  apply Forall_forall. intros issue Hin.
  apply In_firstn, in_rev in Hin.
  revert issue Hin. now apply Forall_forall.
Qed.

Lemma staffing_pass_floods_feed_witness :
  run (staffingInterval (Some (repeat Fixtures.water_station 100)))
      Samples.ambient 0 [Samples.unreferenced_issue]
  = firstn 100
      (rev (calls_of (staffingInterval (Some (repeat Fixtures.water_station 100)))
                     Samples.ambient 0)) /\
  Forall (fun issue => Issue.type issue = Issue.warning)
         (run (staffingInterval (Some (repeat Fixtures.water_station 100)))
              Samples.ambient 0 [Samples.unreferenced_issue]).
Proof.
  apply (@staffing_pass_floods_feed
           (repeat Fixtures.water_station 100) Samples.ambient 0
           [Samples.unreferenced_issue]).
  - simpl. lia.
  - apply Nat.leb_le. vm_compute. reflexivity.
Defined.

(** *** The map *)

Lemma fold_Rmin_le (rest : list R) (x : R) :
  (fold_left Rmin rest x <= x)%R /\
  (forall v, In v rest -> fold_left Rmin rest x <= v)%R.
Proof.
  revert x. induction rest as [| y rest IH]; intros x; simpl.
  - split; [lra | intros v []].
  - destruct (IH (Rmin x y)) as [H1 H2].
    pose proof (Rmin_l x y). pose proof (Rmin_r x y).
    split; [lra |].
    intros v [<- | Hv]; [lra | now apply H2].
Qed.

Lemma fold_Rmax_ge (rest : list R) (x : R) :
  (x <= fold_left Rmax rest x)%R /\
  (forall v, In v rest -> v <= fold_left Rmax rest x)%R.
Proof.
  revert x. induction rest as [| y rest IH]; intros x; simpl.
  - split; [lra | intros v []].
  - destruct (IH (Rmax x y)) as [H1 H2].
    pose proof (Rmax_l x y). pose proof (Rmax_r x y).
    split; [lra |].
    intros v [<- | Hv]; [lra | now apply H2].
Qed.

Lemma Math_min_max (xs : list R) (v : R) :
  In v xs -> (Math_min xs <= v <= Math_max xs)%R.
Proof.
  destruct xs as [| x rest]; [intros [] |].
  unfold Math_min, Math_max.
  destruct (fold_Rmin_le rest x) as [Hm1 Hm2].
  destruct (fold_Rmax_ge rest x) as [HM1 HM2].
  intros [<- | Hv]; split; auto.
Qed.

(** X12. With an event selected, the bounds the map is asked to fit hold
    every loaded position of that event. *)
Theorem MapUpdater_fits_event_positions
  (positions : list Position.t) (selectedEventId : option string)
  (p : Position.t) :
  Js.truthy_string selectedEventId = true ->
  In p positions ->
  of_event selectedEventId p = true ->
  exists south west north east,
    MapUpdater positions selectedEventId = fitBounds south west north east /\
    (south <= Position.latitude p <= north)%R /\
    (west <= Position.longitude p <= east)%R.
Proof.
  intros Hsel Hin Hev.
  assert (Hp : In p (filter (of_event selectedEventId) positions))
    by (apply filter_In; now split).
  unfold MapUpdater. rewrite Hsel.
  destruct positions as [| q rest]; [now elim Hin |].
  cbn [List.length Nat.ltb Nat.leb andb].
  destruct (filter (of_event selectedEventId) (q :: rest)) as [| e es] eqn:E;
    [now elim Hp |].
  cbn [List.length Nat.ltb Nat.leb].
  do 4 eexists. split; [reflexivity |].
  split; apply Math_min_max; now apply in_map.
Qed.

Lemma MapUpdater_fits_event_positions_witness :
  exists south west north east,
    MapUpdater [Fixtures.water_station] (Some "evt-1")
    = fitBounds south west north east /\
    (south <= Position.latitude Fixtures.water_station <= north)%R /\
    (west <= Position.longitude Fixtures.water_station <= east)%R.
Proof.
  apply (@MapUpdater_fits_event_positions
           [Fixtures.water_station] (Some "evt-1") Fixtures.water_station).
  - reflexivity.
  - left. reflexivity.
  - reflexivity.
Defined.

(** *** The selection and the address *)

(** X13. The selection survives a reload, though the feed does not (it
    starts empty again): what the select's change sets is what the address,
    once written back, gives as the initial selection. For any selection,
    the one restored from the address is the same, or both stand for "no
    filter"; so it filters any issues and any positions as the one before. *)
Theorem selection_round_trip
  (value : string) (selectedEventId : option string)
  (events : list Event.t) (issues : list Issue.t)
  (positions : list Position.t) :
  initial_selection (selection_effect (onSelectChange value))
  = onSelectChange value /\
  (initial_selection (selection_effect selectedEventId) = selectedEventId \/
   (selectedEventId = Some "" /\
    initial_selection (selection_effect selectedEventId) = None)) /\
  shown_issues (initial_selection (selection_effect selectedEventId))
               events issues
  = shown_issues selectedEventId events issues /\
  filteredPositions (initial_selection (selection_effect selectedEventId))
                    positions
  = filteredPositions selectedEventId positions.
Proof.
  split.
  - unfold onSelectChange.
    destruct (Js.truthy_string (Some value)) eqn:E; [| reflexivity].
    unfold selection_effect. rewrite E. reflexivity.
  - destruct selectedEventId as [v |]; [| repeat split; now left].
    unfold selection_effect.
    destruct (Js.truthy_string (Some v)) eqn:E.
    + repeat split. now left.
    + assert (Hv : v = "").
      { simpl in E. apply negb_false_iff, String.eqb_eq in E. exact E. }
      subst v. repeat split. right. now split.
Qed.

(** X21. While an event is selected, a signup notification adds nothing:
    no call of [addIssue] is made and the feed stays as it is, whatever the
    position lookup gave. *)
Theorem signup_notifications_silent_under_filter
  (selectedEventId : option string) (position : option Lookup)
  (payload : Payload) (env : Ambient) (n : nat) (issues : list Issue.t) :
  Js.truthy_string selectedEventId = true ->
  calls_of (onSignupChange selectedEventId position payload) env n = [] /\
  run (onSignupChange selectedEventId position payload) env n issues = issues.
Proof.
  intros Hsel.
  pose proof (@onSignupChange_filtered selectedEventId position payload env n Hsel)
    as Hcalls.
  split; [exact Hcalls |].
  unfold run. unfold calls_of in Hcalls. rewrite Hcalls. reflexivity.
Qed.

Lemma signup_notifications_silent_under_filter_witness :
  calls_of
    (onSignupChange (Some "evt-1")
       (lookup_position [Fixtures.water_station] "p-1")
       Fixtures.signup_for_water_station)
    Samples.ambient 0 = [] /\
  run
    (onSignupChange (Some "evt-1")
       (lookup_position [Fixtures.water_station] "p-1")
       Fixtures.signup_for_water_station)
    Samples.ambient 0 [Samples.unreferenced_issue]
  = [Samples.unreferenced_issue].
Proof.
  apply (@signup_notifications_silent_under_filter (Some "evt-1")
           (lookup_position [Fixtures.water_station] "p-1")
           Fixtures.signup_for_water_station Samples.ambient 0
           [Samples.unreferenced_issue]).
  reflexivity.
Defined.

End DashboardFacts.

(** ** The check-in page *)

Section CheckInFacts.

Import DataService CheckInView.

(** X14. When the page shows the near/away hint, the hint is right: it
    reads "near" exactly when the distance between the user and the
    position is at most 200 m. *)
Theorem proximity_hint_is_right
  (u : CheckIn.UserLocation) (p : CheckIn.Position) (near : bool) :
  proximity_line (Some u) p = hint near ->
  exists plat plon,
    CheckIn.latitude p = Some plat /\
    CheckIn.longitude p = Some plon /\
    (near = true <->
     (CheckIn.calculateDistance (CheckIn.lat u) (CheckIn.lng u) plat plon
      <= 200)%R).
Proof.
  unfold proximity_line.
  destruct (CheckIn.latitude p) as [plat |] eqn:Hlat; [| discriminate].
  destruct (Js.truthy_number (Some plat)) eqn:Tlat; [| discriminate].
  destruct (CheckIn.longitude p) as [plon |] eqn:Hlon; [| discriminate].
  destruct (Js.truthy_number (Some plon)) eqn:Tlon; [| discriminate].
  intros H. injection H as <-.
  exists plat, plon. repeat split; try reflexivity.
  - intros Hnear.
    apply (isNearPosition_nonzero u p Hlat Hlon); [| | exact Hnear];
      intros ->; simpl in *;
      destruct (Req_dec_T 0 0) as [_ | Hne]; try discriminate; now elim Hne.
  - intros Hd.
    apply (isNearPosition_nonzero u p Hlat Hlon); [| | exact Hd];
      intros ->; simpl in *;
      destruct (Req_dec_T 0 0) as [_ | Hne]; try discriminate; now elim Hne.
Qed.

Lemma proximity_hint_is_right_witness :
  exists plat plon,
    CheckIn.latitude Fixtures.hill_station = Some plat /\
    CheckIn.longitude Fixtures.hill_station = Some plon /\
    (CheckIn.isNearPosition (Some Samples.one_degree_west)
                            (Some Fixtures.hill_station) = true <->
     (CheckIn.calculateDistance
        (CheckIn.lat Samples.one_degree_west)
        (CheckIn.lng Samples.one_degree_west) plat plon <= 200)%R).
Proof.
  apply (@proximity_hint_is_right
           Samples.one_degree_west Fixtures.hill_station
           (CheckIn.isNearPosition (Some Samples.one_degree_west)
                                   (Some Fixtures.hill_station))).
  unfold proximity_line. simpl.
  destruct (Req_dec_T 1 0) as [H | _]; [lra |].
  destruct (Req_dec_T (-78) 0) as [H | _]; [lra |].
  reflexivity.
Defined.

(** X15. Once the page has loaded a position and an answer of the
    volunteers query, it offers the select and the button exactly when the
    table holds a signup of that position that has not arrived; otherwise it
    shows the note that no volunteer is available, and offers no check-in. *)
Theorem render_offers_check_in_iff_eligible
  (ord : ColumnOrder) (t : Table) (positionId : string)
  (data : list SignupRow) (p : CheckIn.Position)
  (userLocation : option CheckIn.UserLocation) (locationError : option string) :
  volunteers_query ord t (Some positionId) (Rows data) ->
  render false false false None None (Some p) (Some data)
         userLocation locationError
  = Form (proximity_line userLocation p) locationError
         (if existsb (eligible positionId) t
          then select_and_button data
          else no_volunteers_note).
Proof.
  intros Hq.
  apply volunteers_query_rows in Hq.
  destruct Hq as [pid [Hpid [Hperm _]]]. injection Hpid as <-.
  unfold render. simpl. f_equal.
  destruct (existsb (eligible positionId) t) eqn:E.
  - apply existsb_exists in E. destruct E as [r [Hr Hel]].
    assert (Hin : In r data).
    { apply (Permutation_in _ Hperm), filter_In. now split. }
    destruct data as [| v vs]; [now elim Hin | reflexivity].
  - destruct data as [| v vs]; [reflexivity |].
    assert (Hv : In v (filter (eligible positionId) t)).
    { apply (Permutation_in _ (Permutation_sym Hperm)). now left. }
    apply filter_In in Hv. destruct Hv as [Hv Hel].
    assert (existsb (eligible positionId) t = true)
      by (apply existsb_exists; now exists v).
    congruence.
Qed.

Lemma render_offers_check_in_iff_eligible_witness :
  render false false false None None (Some Fixtures.hill_station)
         (Some (sort_ascending TextColumn.order
                  (filter (eligible "p-1") Fixtures.all_arrived)))
         None (Some "Unable to get your location: denied")
  = Form no_line (Some "Unable to get your location: denied")
         no_volunteers_note.
Proof.
  apply (@render_offers_check_in_iff_eligible
           TextColumn.order Fixtures.all_arrived "p-1"
           (sort_ascending TextColumn.order
              (filter (eligible "p-1") Fixtures.all_arrived))
           Fixtures.hill_station None
           (Some "Unable to get your location: denied")).
  apply volunteers_query_answers. reflexivity.
Defined.

(** X16. A click submits at most the selected volunteer, never an empty
    identifier and never while a check-in is in flight; and after a
    successful check-in the selection is cleared, so a further click submits
    nothing. *)
Theorem click_submits_selection_once
  (page : CheckInPage) (volunteerId : string) (t : Table) :
  (forall submitted,
     onCheckInClick page = Some submitted ->
     submitted = selectedVolunteer page /\
     submitted <> "" /\
     isLoading page = false) /\
  onCheckInClick (snd (checkInMutation None volunteerId t page)) = None.
Proof.
  split; [| reflexivity].
  intros submitted. unfold onCheckInClick. simpl.
  destruct (String.eqb (selectedVolunteer page) EmptyString) eqn:E;
    simpl; [discriminate |].
  destruct (isLoading page); [discriminate |].
  intros H. injection H as <-.
  apply String.eqb_neq in E. auto.
Qed.

Lemma click_submits_selection_once_witness :
  "s-1" = selectedVolunteer Samples.idle_page /\
  "s-1" <> "" /\
  isLoading Samples.idle_page = false.
Proof.
  apply (proj1 (click_submits_selection_once
                  Samples.idle_page "s-1" Samples.two_signups) "s-1").
  reflexivity.
Defined.

(** *** What the update does to the table *)

Lemma mark_arrived_not_eligible (positionId : string) (r : SignupRow) :
  eligible positionId (mark_arrived r) = false.
Proof. unfold eligible. simpl. apply andb_false_r. Qed.

(** X17. A check-in takes out of every position's eligible list the rows
    under the checked-in identifier and nothing else; the other rows stay,
    in their order. *)
Theorem update_arrived_hides_only_that_signup
  (volunteerId positionId : string) (t : Table) :
  filter (eligible positionId) (update_arrived volunteerId t)
  = filter (fun r => eligible positionId r
                     && negb (String.eqb (id r) volunteerId)) t.
Proof.
  unfold update_arrived.
  induction t as [| r rest IH]; [reflexivity |].
  cbn [map filter]. rewrite IH.
  destruct (String.eqb (id r) volunteerId).
  - rewrite mark_arrived_not_eligible, andb_false_r. reflexivity.
  - rewrite andb_true_r. reflexivity.
Qed.

(** X18. The update is idempotent, and updates for two signups can be
    applied in either order. *)
Theorem update_arrived_idempotent_commutes (x y : string) (t : Table) :
  update_arrived x (update_arrived x t) = update_arrived x t /\
  update_arrived x (update_arrived y t) = update_arrived y (update_arrived x t).
Proof.
  unfold update_arrived. rewrite !map_map. split; apply map_ext; intros r.
  - destruct (String.eqb (id r) x) eqn:Ex; simpl; rewrite Ex; reflexivity.
  - destruct (String.eqb (id r) x) eqn:Ex, (String.eqb (id r) y) eqn:Ey;
      simpl; rewrite ?Ex, ?Ey; reflexivity.
Qed.

End CheckInFacts.

(** ** The positions page *)

Section PositionsFacts.

Import PositionsPage.




(** X20. Editing a position leaves every other position as it was and
    keeps the identifiers and their order; deleting one removes the rows
    under its identifier and no other. *)
Theorem edit_and_delete_touch_one_position
  (positionId : string) (data : PositionFormData) (t : Table) :
  map id (updateMutation positionId data t) = map id t /\
  filter (fun r => negb (String.eqb (id r) positionId))
         (updateMutation positionId data t)
  = filter (fun r => negb (String.eqb (id r) positionId)) t /\
  (forall r, In r (deleteMutation positionId t) <->
             In r t /\ id r <> positionId).
Proof.
  split; [| split].
  - unfold updateMutation. rewrite map_map. apply map_ext.
    intros r. now destruct (String.eqb (id r) positionId).
  - unfold updateMutation.
    induction t as [| r rest IH]; [reflexivity |].
    cbn [map filter]. rewrite IH.
    destruct (String.eqb (id r) positionId) eqn:E; simpl; now rewrite E.
  - intros r. unfold deleteMutation.
    rewrite filter_In, negb_true_iff, String.eqb_neq. reflexivity.
Qed.

End PositionsFacts.
